(** * Session synchronisation core: server-of-record, sync scheduler, local store

    A shallow embedding of the state-synchronisation code of the editor:

    - [Server]: the Express session backend (class [UserSession], the
      [sessions] map, the validation helpers, the request handlers, the
      upload middleware and the periodic cleanup);
    - [Client]: the legacy [SessionManager] of [script.js] (debounced push,
      periodic validation poll, bootstrap);
    - [LocalStore]: the React hook [useSessionManager] backed by
      [localStorage].

    JavaScript objects are finite maps from property names to values,
    [new Date()] readings are integers (milliseconds) handed to the code by
    its caller, [uuidv4()] results are strings handed to the constructor, and
    the outcome of every network or storage call is an explicit input.
    A request is taken at the point where it reaches its route: the global
    middleware (rate limiter, body parsers) has admitted it and parsed its
    body. *)

From stdpp Require Import gmap strings list fin_maps pretty.
From Stdlib Require Import ZArith Lia Ascii String.

(** ** JavaScript values *)

(** The values that travel through the handlers (parsed JSON bodies, state
    objects).  Numbers are restricted to integers: the code only ever tests
    a number for being zero. *)
#[warnings="-register-all"]
Inductive JsVal : Type :=
  | VUndefined
  | VNull
  | VBool (b : bool)
  | VNum (n : Z)
  | VStr (s : string)
  | VArr (elems : list JsVal)
  | VObj (props : gmap string JsVal).

(** [!!v] *)
Definition truthy (v : JsVal) : bool :=
  match v with
  | VUndefined | VNull => false
  | VBool b => b
  | VNum n => negb (n =? 0)%Z
  | VStr s => negb (String.eqb s "")
  | VArr _ | VObj _ => true
  end.

(** [typeof v === 'object'] *)
Definition typeof_object (v : JsVal) : bool :=
  match v with
  | VNull | VArr _ | VObj _ => true
  | _ => false
  end.

(** [typeof v === 'boolean'] *)
Definition typeof_boolean (v : JsVal) : bool :=
  match v with VBool _ => true | _ => false end.

(** [v === undefined] *)
Definition is_undefined (v : JsVal) : bool :=
  match v with VUndefined => true | _ => false end.

(** [Array.isArray(v)] *)
Definition isArray (v : JsVal) : bool :=
  match v with VArr _ => true | _ => false end.

(** The own enumerable properties of a value, as [Object.keys] and object
    spread see them: those of an object, the indices of an array or of a
    string, nothing for the other primitives. *)
Definition own_props (v : JsVal) : gmap string JsVal :=
  match v with
  | VObj m => m
  | VArr l => list_to_map (imap (λ i x, (pretty i, x)) l)
  | VStr s =>
      list_to_map
        (imap (λ i c, (pretty i, VStr (String c EmptyString)))
              (String.list_ascii_of_string s))
  | _ => ∅
  end.

(** [v.k] for the property names the code reads ([activeTab],
    [excelToggle], the workspace keys): a missing property is [undefined]. *)
Definition get_prop (v : JsVal) (k : string) : JsVal :=
  default VUndefined (own_props v !! k).

(** [Object.keys(v)] *)
Definition keys (v : JsVal) : list string := (map_to_list (own_props v)).*1.

(** [names.includes(v)] for an array literal of strings. *)
Definition includes (names : list string) (v : JsVal) : bool :=
  match v with
  | VStr s => bool_decide (s ∈ names)
  | _ => false
  end.

(** [{ ...base, ...patch }] *)
Definition spread (base : gmap string JsVal) (patch : JsVal) : gmap string JsVal :=
  own_props patch ∪ base.

(** ** The session backend *)

Module Server.

Local Open Scope Z_scope.

(** *** class UserSession *)

Record UserSession : Type := mkUserSession {
  sessionId : string;
  createdAt : Z;
  lastActivity : Z;
  uiState : gmap string JsVal;
  workspaceData : gmap string JsVal
}.

Definition default_uiState : gmap string JsVal :=
  {[ "activeTab" := VStr "grid"; "excelToggle" := VBool false ]}.

Definition default_workspaceData : gmap string JsVal :=
  {[ "gridData" := VArr []; "tableData" := VArr [];
     "pqQueryData" := VArr []; "uploads" := VArr [] ]}.

(** [new UserSession()]: [uuid] is the result of [uuidv4()], [t_created] and
    [t_active] are the two successive [new Date()] readings. *)
Definition new_UserSession (uuid : string) (t_created t_active : Z) : UserSession :=
  {| sessionId := uuid;
     createdAt := t_created;
     lastActivity := t_active;
     uiState := default_uiState;
     workspaceData := default_workspaceData |}.

Definition updateLastActivity (now : Z) (s : UserSession) : UserSession :=
  {| sessionId := sessionId s;
     createdAt := createdAt s;
     lastActivity := now;
     uiState := uiState s;
     workspaceData := workspaceData s |}.

Definition updateUiState (now : Z) (newUiState : JsVal) (s : UserSession) : UserSession :=
  updateLastActivity now
    {| sessionId := sessionId s;
       createdAt := createdAt s;
       lastActivity := lastActivity s;
       uiState := spread (uiState s) newUiState;
       workspaceData := workspaceData s |}.

Definition updateWorkspaceData (now : Z) (newWorkspaceData : JsVal) (s : UserSession) : UserSession :=
  updateLastActivity now
    {| sessionId := sessionId s;
       createdAt := createdAt s;
       lastActivity := lastActivity s;
       uiState := uiState s;
       workspaceData := spread (workspaceData s) newWorkspaceData |}.

Definition resetSession (now : Z) (s : UserSession) : UserSession :=
  updateLastActivity now
    {| sessionId := sessionId s;
       createdAt := createdAt s;
       lastActivity := lastActivity s;
       uiState := default_uiState;
       workspaceData := default_workspaceData |}.

(** *** Input validation helpers *)

(** The character classes of [uuidRegex]; the [i] flag makes the letters
    match in either case. *)
Inductive CharClass : Type := Hex | Dash | Four | Variant.

Definition in_range (lo hi : nat) (c : ascii) : bool :=
  ((lo <=? nat_of_ascii c) && (nat_of_ascii c <=? hi))%nat.

Definition is_hex (c : ascii) : bool :=
  in_range 48 57 c || in_range 97 102 c || in_range 65 70 c.

Definition class_matches (cl : CharClass) (c : ascii) : bool :=
  match cl with
  | Hex => is_hex c
  | Dash => Ascii.eqb c "-"
  | Four => Ascii.eqb c "4"
  | Variant =>
      Ascii.eqb c "8" || Ascii.eqb c "9" || Ascii.eqb c "a" || Ascii.eqb c "b"
      || Ascii.eqb c "A" || Ascii.eqb c "B"
  end.

(** An anchored match [^...$] of a sequence of one-character classes. *)
Fixpoint matches (pat : list CharClass) (s : string) : bool :=
  match pat, s with
  | [], EmptyString => true
  | cl :: pat', String c s' => class_matches cl c && matches pat' s'
  | _, _ => false
  end.

Definition uuidRegex : list CharClass :=
  replicate 8 Hex ++ [Dash] ++ replicate 4 Hex ++ [Dash; Four] ++
  replicate 3 Hex ++ [Dash; Variant] ++ replicate 3 Hex ++ [Dash] ++
  replicate 12 Hex.

Definition validateSessionId (id : string) : bool := matches uuidRegex id.

Definition tabs : list string := ["grid"; "table"; "pq-query"].

Definition validateUiState (uiState : JsVal) : bool :=
  if negb (truthy uiState) || negb (typeof_object uiState) then false
  else if truthy (get_prop uiState "activeTab")
          && negb (includes tabs (get_prop uiState "activeTab")) then false
  else if negb (is_undefined (get_prop uiState "excelToggle"))
          && negb (typeof_boolean (get_prop uiState "excelToggle")) then false
  else true.

Definition allowedKeys : list string :=
  ["gridData"; "tableData"; "pqQueryData"; "uploads"].

Definition validateWorkspaceData (workspaceData : JsVal) : bool :=
  if negb (truthy workspaceData) || negb (typeof_object workspaceData) then false
  else
    forallb (λ key, bool_decide (key ∈ allowedKeys)) (keys workspaceData)
    && forallb (λ key, isArray (get_prop workspaceData key)) (keys workspaceData).

(** *** Responses *)

Inductive Payload : Type :=
  | NoPayload
  | Session (session : UserSession)                       (* session.toJSON() *)
  | Created (id : string) (session : UserSession)
  | UploadInfo (originalName mimetype : string) (size uploadedAt : Z).

Record Response : Type := mkResponse {
  status : Z;
  success : bool;
  message : option string;
  payload : Payload
}.

Definition failure (code : Z) (msg : string) : Response :=
  {| status := code; success := false; message := Some msg; payload := NoPayload |}.

(** *** Session cleanup *)

(** The loop of [cleanupSessions] for a clock reading [now] and a threshold
    [maxAge]: every entry of the map is visited once and deleted when
    [now - session.lastActivity > maxAge]. *)
Definition sweepExpired (now maxAge : Z) (sessions : gmap string UserSession)
  : gmap string UserSession :=
  foldr (λ entry acc,
           if now - lastActivity entry.2 >? maxAge then delete entry.1 acc else acc)
        sessions (map_to_list sessions).

Definition maxAge : Z := 24 * 60 * 60 * 1000.

Definition cleanupSessions (now : Z) (sessions : gmap string UserSession)
  : gmap string UserSession :=
  sweepExpired now maxAge sessions.

(** *** Routes *)

(** POST /api/session/init *)
Definition post_init (uuid : string) (t_created t_active : Z)
    (sessions : gmap string UserSession) : Response * gmap string UserSession :=
  let newSession := new_UserSession uuid t_created t_active in
  ({| status := 201; success := true;
      message := Some "Session created successfully";
      payload := Created (sessionId newSession) newSession |},
   <[sessionId newSession := newSession]> sessions).

(** GET /api/session/:sessionId *)
Definition get_session (now : Z) (id : string)
    (sessions : gmap string UserSession) : Response * gmap string UserSession :=
  if negb (validateSessionId id) then
    (failure 400 "Invalid session ID format", sessions)
  else
    match sessions !! id with
    | None => (failure 404 "Session not found", sessions)
    | Some session =>
        let session := updateLastActivity now session in
        ({| status := 200; success := true; message := None;
            payload := Session session |},
         <[id := session]> sessions)
    end.

(** PUT /api/session/:sessionId/state.  [uiState] and [workspaceData] are the
    two fields destructured from the body ([VUndefined] when absent);
    [t_ui] and [t_ws] are the clock readings of the two update methods. *)
Definition put_state (t_ui t_ws : Z) (id : string) (uiState workspaceData : JsVal)
    (sessions : gmap string UserSession) : Response * gmap string UserSession :=
  if negb (validateSessionId id) then
    (failure 400 "Invalid session ID format", sessions)
  else
    match sessions !! id with
    | None => (failure 404 "Session not found", sessions)
    | Some session =>
        if negb (is_undefined uiState) && negb (validateUiState uiState) then
          (failure 400 "Invalid UI state data", sessions)
        else
          let session :=
            if negb (is_undefined uiState) then updateUiState t_ui uiState session
            else session in
          if negb (is_undefined workspaceData)
             && negb (validateWorkspaceData workspaceData) then
            (failure 400 "Invalid workspace data", <[id := session]> sessions)
          else
            let session :=
              if negb (is_undefined workspaceData)
              then updateWorkspaceData t_ws workspaceData session
              else session in
            ({| status := 200; success := true;
                message := Some "Session state updated successfully";
                payload := Session session |},
             <[id := session]> sessions)
    end.

(** DELETE /api/session/:sessionId/reset *)
Definition delete_reset (now : Z) (id : string)
    (sessions : gmap string UserSession) : Response * gmap string UserSession :=
  if negb (validateSessionId id) then
    (failure 400 "Invalid session ID format", sessions)
  else
    match sessions !! id with
    | None => (failure 404 "Session not found", sessions)
    | Some session =>
        let session := resetSession now session in
        ({| status := 200; success := true;
            message := Some "Session reset successfully";
            payload := Session session |},
         <[id := session]> sessions)
    end.

(** *** Uploads *)

(** The file part of a multipart request, in the field named [file];
    [data] is the base64 rendering of its bytes. *)
Record File : Type := mkFile {
  originalname : string;
  mimetype : string;
  size : Z;
  data : string
}.

(** What a middleware hands to [next(err)]. *)
Inductive MiddlewareError : Type :=
  | MulterError (code : string)
  | PlainError (msg : string).

Definition fileSize : Z := 10 * 1024 * 1024.

Definition allowedTypes : list string :=
  ["text/csv"; "application/vnd.ms-excel";
   "application/vnd.openxmlformats-officedocument.spreadsheetml.sheet"].

(** [fileFilter]: [inr true] accepts the file, [inl e] is [cb(e, false)]. *)
Definition fileFilter (file : File) : MiddlewareError + bool :=
  if bool_decide (mimetype file ∈ allowedTypes) then inr true
  else inl (PlainError "Invalid file type. Only CSV and Excel files are allowed.").

(** [upload.single('file')] as configured: the filter runs when the part
    starts, the size limit trips while the part is read into memory, as soon
    as the bytes read reach [fileSize] (a file of exactly the limit is
    refused too), and a request without a file part passes with [req.file]
    undefined. *)
Definition upload_single (part : option File) : MiddlewareError + option File :=
  match part with
  | None => inr None
  | Some file =>
      match fileFilter file with
      | inl e => inl e
      | inr false => inr None
      | inr true =>
          if size file >=? fileSize then inl (MulterError "LIMIT_FILE_SIZE")
          else inr (Some file)
      end
  end.

(** The error handling middleware. *)
Definition error_handler (error : MiddlewareError) : Response :=
  match error with
  | MulterError code =>
      if String.eqb code "LIMIT_FILE_SIZE" then
        failure 400 "File too large. Maximum size is 10MB."
      else failure 500 "Internal server error"
  | PlainError _ => failure 500 "Internal server error"
  end.

(** The handler behind the upload middleware; [req_file] is [req.file]. *)
Definition upload_handler (t_uploaded t_touch : Z) (id : string) (req_file : option File)
    (sessions : gmap string UserSession) : Response * gmap string UserSession :=
  if negb (validateSessionId id) then
    (failure 400 "Invalid session ID format", sessions)
  else
    match sessions !! id with
    | None => (failure 404 "Session not found", sessions)
    | Some session =>
        match req_file with
        | None => (failure 400 "No file uploaded", sessions)
        | Some file =>
            let uploadInfo : gmap string JsVal :=
              {[ "originalName" := VStr (originalname file);
                 "mimetype" := VStr (mimetype file);
                 "size" := VNum (size file);
                 "uploadedAt" := VNum t_uploaded;
                 "data" := VStr (data file) ]} in
            match workspaceData session !! "uploads" with
            | Some (VArr uploads) =>
                (* session.workspaceData.uploads.push(uploadInfo) *)
                let session :=
                  updateLastActivity t_touch
                    {| sessionId := sessionId session;
                       createdAt := createdAt session;
                       lastActivity := lastActivity session;
                       uiState := uiState session;
                       workspaceData :=
                         <["uploads" := VArr (uploads ++ [VObj uploadInfo])]>
                           (workspaceData session) |} in
                ({| status := 200; success := true;
                    message := Some "File uploaded successfully";
                    payload := UploadInfo (originalname file) (mimetype file)
                                          (size file) t_uploaded |},
                 <[id := session]> sessions)
            | _ =>
                (* push on a value that is not an array throws; caught *)
                (failure 500 "Internal server error", sessions)
            end
        end
    end.

(** POST /api/session/:sessionId/upload: middleware, then handler, with the
    error handling middleware behind both. *)
Definition post_upload (t_uploaded t_touch : Z) (id : string) (part : option File)
    (sessions : gmap string UserSession) : Response * gmap string UserSession :=
  match upload_single part with
  | inl error => (error_handler error, sessions)
  | inr req_file => upload_handler t_uploaded t_touch id req_file sessions
  end.

(** *** Histories of the store *)

(** One event of the server's life, with the identifiers and clock readings
    the code draws while serving it. *)
Inductive Request : Type :=
  | ReqInit (uuid : string) (t_created t_active : Z)
  | ReqGet (now : Z) (id : string)
  | ReqPutState (t_ui t_ws : Z) (id : string) (uiState workspaceData : JsVal)
  | ReqReset (now : Z) (id : string)
  | ReqUpload (t_uploaded t_touch : Z) (id : string) (part : option File)
  | ReqCleanup (now : Z).

Definition serve (r : Request) (sessions : gmap string UserSession)
  : gmap string UserSession :=
  match r with
  | ReqInit uuid t1 t2 => (post_init uuid t1 t2 sessions).2
  | ReqGet now id => (get_session now id sessions).2
  | ReqPutState t1 t2 id ui ws => (put_state t1 t2 id ui ws sessions).2
  | ReqReset now id => (delete_reset now id sessions).2
  | ReqUpload t1 t2 id part => (post_upload t1 t2 id part sessions).2
  | ReqCleanup now => cleanupSessions now sessions
  end.

Definition run (history : list Request) (sessions : gmap string UserSession)
  : gmap string UserSession :=
  foldl (λ acc r, serve r acc) sessions history.

(** The clock readings of an event, in the order they are taken. *)
Definition readings (r : Request) : list Z :=
  match r with
  | ReqInit _ t1 t2 => [t1; t2]
  | ReqGet now _ => [now]
  | ReqPutState t1 t2 _ _ _ => [t1; t2]
  | ReqReset now _ => [now]
  | ReqUpload t1 t2 _ _ => [t1; t2]
  | ReqCleanup now => [now]
  end.

(** The clock never runs backwards. *)
Fixpoint monotone_from (t : Z) (ts : list Z) : bool :=
  match ts with
  | [] => true
  | t' :: ts' => (t <=? t') && monotone_from t' ts'
  end.

Definition monotone (ts : list Z) : bool :=
  match ts with
  | [] => true
  | t :: ts' => monotone_from t ts'
  end.

Definition well_timed (history : list Request) : bool :=
  monotone (List.concat (List.map readings history)).

(** *** Health check and addressing *)

(** The body of GET /api/health. *)
Record Health : Type := mkHealth {
  healthy : bool;
  health_message : string;
  timestamp : Z;
  activeSessions : nat
}.

Definition get_health (now : Z) (sessions : gmap string UserSession) : Health :=
  {| healthy := true; health_message := "Server is running";
     timestamp := now; activeSessions := base.size sessions |}.

(** The [:sessionId] parameter of an event, if its route has one. *)
Definition addressee (r : Request) : option string :=
  match r with
  | ReqGet _ id | ReqPutState _ _ id _ _ | ReqReset _ id | ReqUpload _ _ id _ => Some id
  | ReqInit _ _ _ | ReqCleanup _ => None
  end.

(** The response to an event that is a request. *)
Definition respond (r : Request) (sessions : gmap string UserSession) : option Response :=
  match r with
  | ReqInit uuid t1 t2 => Some (post_init uuid t1 t2 sessions).1
  | ReqGet now id => Some (get_session now id sessions).1
  | ReqPutState t1 t2 id ui ws => Some (put_state t1 t2 id ui ws sessions).1
  | ReqReset now id => Some (delete_reset now id sessions).1
  | ReqUpload t1 t2 id part => Some (post_upload t1 t2 id part sessions).1
  | ReqCleanup _ => None
  end.

End Server.

(** ** The legacy client: class SessionManager *)

Module Client.

Local Open Scope Z_scope.

Record SessionManager : Type := mkSessionManager {
  sessionId : option string;          (* null, or the id *)
  syncTimeout : option nat;           (* handle of the last debounce timer *)
  validationInterval : option nat;    (* handle of the last poll interval *)
  isInitialized : bool;
  state : gmap string JsVal
}.

(** The requests the manager sends. *)
Inductive Fetch : Type :=
  | PostInit
  | GetSession (id : string)
  | PutState (id : string) (uiState : gmap string JsVal)
  | DeleteReset (id : string).

(** The manager together with the part of the browser it acts on: the
    [sessionId] item of [sessionStorage], the pending [setTimeout] callbacks
    (handle and due time; every one of them is the debounced
    [syncToServer]), the live [setInterval] handles (every one of them is the
    validation poll), the next timer handle (handles are positive, hence
    truthy), and the requests sent so far, oldest first. *)
Record Browser : Type := mkBrowser {
  manager : SessionManager;
  storedId : option string;
  timeouts : list (nat * Z);
  intervals : list nat;
  nextHandle : nat;
  fetched : list Fetch
}.

Definition with_manager (f : SessionManager → SessionManager) (b : Browser) : Browser :=
  {| manager := f (manager b); storedId := storedId b; timeouts := timeouts b;
     intervals := intervals b; nextHandle := nextHandle b; fetched := fetched b |}.

Definition set_sessionId (v : option string) (m : SessionManager) : SessionManager :=
  {| sessionId := v; syncTimeout := syncTimeout m;
     validationInterval := validationInterval m;
     isInitialized := isInitialized m; state := state m |}.

Definition set_syncTimeout (v : option nat) (m : SessionManager) : SessionManager :=
  {| sessionId := sessionId m; syncTimeout := v;
     validationInterval := validationInterval m;
     isInitialized := isInitialized m; state := state m |}.

Definition set_validationInterval (v : option nat) (m : SessionManager) : SessionManager :=
  {| sessionId := sessionId m; syncTimeout := syncTimeout m;
     validationInterval := v;
     isInitialized := isInitialized m; state := state m |}.

Definition set_isInitialized (v : bool) (m : SessionManager) : SessionManager :=
  {| sessionId := sessionId m; syncTimeout := syncTimeout m;
     validationInterval := validationInterval m;
     isInitialized := v; state := state m |}.

Definition set_state (v : gmap string JsVal) (m : SessionManager) : SessionManager :=
  {| sessionId := sessionId m; syncTimeout := syncTimeout m;
     validationInterval := validationInterval m;
     isInitialized := isInitialized m; state := v |}.

Definition set_storedId (v : option string) (b : Browser) : Browser :=
  {| manager := manager b; storedId := v; timeouts := timeouts b;
     intervals := intervals b; nextHandle := nextHandle b; fetched := fetched b |}.

(** [fetch(...)]: the request goes out. *)
Definition fetch (r : Fetch) (b : Browser) : Browser :=
  {| manager := manager b; storedId := storedId b; timeouts := timeouts b;
     intervals := intervals b; nextHandle := nextHandle b;
     fetched := fetched b ++ [r] |}.

(** *** Timers *)

Definition clearTimeout (h : option nat) (b : Browser) : Browser :=
  match h with
  | None => b
  | Some h =>
      {| manager := manager b; storedId := storedId b;
         timeouts := filter (λ e, e.1 ≠ h) (timeouts b);
         intervals := intervals b; nextHandle := nextHandle b;
         fetched := fetched b |}
  end.

Definition setTimeout (due : Z) (b : Browser) : nat * Browser :=
  (nextHandle b,
   {| manager := manager b; storedId := storedId b;
      timeouts := timeouts b ++ [(nextHandle b, due)];
      intervals := intervals b; nextHandle := S (nextHandle b);
      fetched := fetched b |}).

Definition clearInterval (h : option nat) (b : Browser) : Browser :=
  match h with
  | None => b
  | Some h =>
      {| manager := manager b; storedId := storedId b; timeouts := timeouts b;
         intervals := filter (λ h', h' ≠ h) (intervals b);
         nextHandle := nextHandle b; fetched := fetched b |}
  end.

Definition setInterval (b : Browser) : nat * Browser :=
  (nextHandle b,
   {| manager := manager b; storedId := storedId b; timeouts := timeouts b;
      intervals := intervals b ++ [nextHandle b]; nextHandle := S (nextHandle b);
      fetched := fetched b |}).

(** *** Talking to the backend *)

(** The parsed body [data] of a response, as far as the manager reads it:
    [data.success], [data.sessionId], and [data.session.uiState] when
    [data.session && data.session.uiState] is truthy. *)
Record Reply : Type := mkReply {
  success : bool;
  replySessionId : string;
  replyUiState : option JsVal
}.

(** How [await fetch(...)] followed by [await response.json()] ends. *)
Inductive Outcome : Type :=
  | Rejected                 (* either await throws *)
  | Resolved (data : Reply).

(** A session id that passes [if (id)]: neither null nor empty. *)
Definition truthy_id (id : option string) : option string :=
  match id with
  | Some s => if String.eqb s "" then None else Some s
  | None => None
  end.

Definition adopt (data : Reply) (m : SessionManager) : SessionManager :=
  match replyUiState data with
  | Some uiState => set_state (spread ∅ uiState) m
  | None => m
  end.

Definition createNewSession (outcome : Outcome) (b : Browser) : bool * Browser :=
  let b := fetch PostInit b in
  match outcome with
  | Rejected => (false, b)
  | Resolved data =>
      if success data then
        let b := with_manager (set_sessionId (Some (replySessionId data))) b in
        let b := set_storedId (sessionId (manager b)) b in
        (true, with_manager (adopt data) b)
      else (false, b)
  end.

Definition loadExistingSession (id : string) (outcome : Outcome) (b : Browser)
  : bool * Browser :=
  let b := fetch (GetSession id) b in
  match outcome with
  | Rejected => (false, set_storedId None b)
  | Resolved data =>
      if success data then
        let b := with_manager (set_sessionId (Some id)) b in
        (true, with_manager (adopt data) b)
      else (false, set_storedId None b)
  end.

(** [syncToServer]: the response is only logged. *)
Definition syncToServer (b : Browser) : Browser :=
  match truthy_id (sessionId (manager b)) with
  | None => b
  | Some id => fetch (PutState id (state (manager b))) b
  end.

(** [startPeriodicSync]: the interval it installs runs [validation_tick]. *)
Definition startPeriodicSync (b : Browser) : Browser :=
  let b := match validationInterval (manager b) with
           | Some h => clearInterval (Some h) b
           | None => b
           end in
  let '(h, b) := setInterval b in
  with_manager (set_validationInterval (Some h)) b.

(** [init]; [load] and [create] are the outcomes of the two requests it may
    send. *)
Definition init (load create : Outcome) (b : Browser) : bool * Browser :=
  let '(resumed, b) :=
    match truthy_id (storedId b) with
    | Some existingSessionId => loadExistingSession existingSessionId load b
    | None => (false, b)
    end in
  if resumed then
    (true, startPeriodicSync (with_manager (set_isInitialized true) b))
  else
    let '(created, b) := createNewSession create b in
    if created then
      (true, startPeriodicSync (with_manager (set_isInitialized true) b))
    else (false, b).

(** The statements that precede [await this.init()] in the poll callback. *)
Definition invalidate (b : Browser) : Browser :=
  let b := set_storedId None b in
  let b := with_manager (set_sessionId None) b in
  let b := with_manager (set_isInitialized false) b in
  clearInterval (validationInterval (manager b)) b.

(** One run of the poll callback, taken at the point where its request
    settles with [poll]. *)
Definition validation_tick (poll load create : Outcome) (b : Browser) : Browser :=
  match truthy_id (sessionId (manager b)) with
  | None => b
  | Some id =>
      let b := fetch (GetSession id) b in
      match poll with
      | Rejected => b
      | Resolved data =>
          if success data then b
          else (init load create (invalidate b)).2
      end
  end.

(** *** Local writes and the debounced push *)

Definition wait : Z := 500.

(** [this.debouncedSync()] called at time [now]. *)
Definition debouncedSync (now : Z) (b : Browser) : Browser :=
  let b := clearTimeout (syncTimeout (manager b)) b in
  let '(h, b) := setTimeout (now + wait) b in
  with_manager (set_syncTimeout (Some h)) b.

Definition updateState (now : Z) (newState : JsVal) (b : Browser) : Browser :=
  let b := with_manager (λ m, set_state (spread (state m) newState) m) b in
  if isInitialized (manager b) then debouncedSync now b else b.

Definition getState (b : Browser) : gmap string JsVal := state (manager b).

(** The event loop reaches time [now]: the timeouts that are due run. *)
Definition elapse (now : Z) (b : Browser) : Browser :=
  let due := filter (λ e, e.2 ≤ now) (timeouts b) in
  let b := {| manager := manager b; storedId := storedId b;
              timeouts := filter (λ e, now < e.2) (timeouts b);
              intervals := intervals b; nextHandle := nextHandle b;
              fetched := fetched b |} in
  foldl (λ b _, syncToServer b) b due.

(** A local write [w.2] issued at time [w.1]. *)
Definition write_at (w : Z * JsVal) (b : Browser) : Browser :=
  updateState w.1 w.2 (elapse w.1 b).

Definition run_writes (ws : list (Z * JsVal)) (b : Browser) : Browser :=
  foldl (λ b w, write_at w b) b ws.

(** Every write comes less than [wait] after the previous one. *)
Fixpoint burst_from (t : Z) (ws : list (Z * JsVal)) : bool :=
  match ws with
  | [] => true
  | w :: ws' => (t <=? w.1) && (w.1 <? t + wait) && burst_from w.1 ws'
  end.

Definition burst (ws : list (Z * JsVal)) : bool :=
  match ws with
  | [] => false
  | w :: ws' => burst_from w.1 ws'
  end.

Definition last_time (t : Z) (ws : list (Z * JsVal)) : Z :=
  foldl (λ _ w, w.1) t ws.

Definition merged (base : gmap string JsVal) (ws : list (Z * JsVal)) : gmap string JsVal :=
  foldl (λ st w, spread st w.2) base ws.

(** *** Reset and teardown *)

(** [resetSession]; [outcome] is how its DELETE request ends. *)
Definition resetSession (outcome : Outcome) (b : Browser) : bool * Browser :=
  match truthy_id (sessionId (manager b)) with
  | None => (false, b)
  | Some id =>
      let b := fetch (DeleteReset id) b in
      match outcome with
      | Rejected => (false, b)
      | Resolved data =>
          if success data then (true, with_manager (adopt data) b)
          else (false, b)
      end
  end.

(** [cleanup], run when the page unloads. *)
Definition cleanup (b : Browser) : Browser :=
  let b := match syncTimeout (manager b) with
           | Some h => clearTimeout (Some h) b
           | None => b
           end in
  match validationInterval (manager b) with
  | Some h => clearInterval (Some h) b
  | None => b
  end.

(** *** Page load *)

(** The state set by the constructor. *)
Definition initial_state : gmap string JsVal :=
  {[ "activeTab" := VStr "grid";
     "excelToggle" := VBool false;
     "sidebarCollapsed" := VBool false;
     "fileConfigs" :=
       VObj {[ "tableName" := VStr "Table1"; "sheetName" := VStr "Sheet1" ]};
     "docProps" :=
       VObj {[ "title" := VStr ""; "subject" := VStr ""; "keywords" := VStr "";
               "createdBy" := VStr ""; "description" := VStr "";
               "lastModifiedBy" := VStr ""; "category" := VStr "";
               "revision" := VStr "" ]};
     "pqQuery" :=
       VObj {[ "queryMashup" := VStr ""; "refreshOnOpen" := VBool false;
               "queryName" := VStr "Query1" ]};
     "gridView" :=
       VObj {[ "isGridView" := VBool false; "promoteHeaders" := VBool false;
               "adjustColumnNames" := VBool false ]} ]}.

(** [new SessionManager()] *)
Definition new_SessionManager : SessionManager :=
  {| sessionId := None; syncTimeout := None; validationInterval := None;
     isInitialized := false; state := initial_state |}.

(** The page right after the script has run: [stored] is what the tab's
    [sessionStorage] holds under [sessionId]; no timer exists yet. *)
Definition page_load (stored : option string) : Browser :=
  {| manager := new_SessionManager; storedId := stored; timeouts := [];
     intervals := []; nextHandle := 1; fetched := [] |}.

(** What can happen to the manager, each asynchronous method taken as one
    step at the point where its requests settle. *)
Inductive Action : Type :=
  | DoInit (load create : Outcome)
  | DoTick (poll load create : Outcome)
  | DoWrite (now : Z) (newState : JsVal)
  | DoElapse (now : Z)
  | DoReset (outcome : Outcome)
  | DoCleanup.

Definition perform (a : Action) (b : Browser) : Browser :=
  match a with
  | DoInit load create => (init load create b).2
  | DoTick poll load create => validation_tick poll load create b
  | DoWrite now newState => updateState now newState b
  | DoElapse now => elapse now b
  | DoReset outcome => (resetSession outcome b).2
  | DoCleanup => cleanup b
  end.

Definition perform_all (actions : list Action) (b : Browser) : Browser :=
  foldl (λ b a, perform a b) b actions.

(** *** The bootstrap, split at its request *)

(** The part of [createNewSession] that runs once its request has settled
    with [outcome]. *)
Definition createNewSession_settle (outcome : Outcome) (b : Browser) : bool * Browser :=
  match outcome with
  | Rejected => (false, b)
  | Resolved data =>
      if success data then
        let b := with_manager (set_sessionId (Some (replySessionId data))) b in
        let b := set_storedId (sessionId (manager b)) b in
        (true, with_manager (adopt data) b)
      else (false, b)
  end.

(** The part of [init] that follows [createNewSession]. *)
Definition init_finish (r : bool * Browser) : bool * Browser :=
  if r.1 then
    (true, startPeriodicSync (with_manager (set_isInitialized true) r.2))
  else (false, r.2).

End Client.

(** ** The local state store: hook useSessionManager *)

Module LocalStore.

Definition SESSION_STORAGE_KEY : string := "user_session_state".

Record Hook : Type := mkHook {
  state : gmap string JsVal;
  isLoading : bool;
  error : option string
}.

(** What [localStorage.setItem] may throw. *)
Inductive Thrown : Type :=
  | ThrownError (message : string)     (* instanceof Error *)
  | ThrownOther.

Definition describe (e : Thrown) : string :=
  match e with
  | ThrownError message => message
  | ThrownOther => "Unknown error"
  end.

(** [localStorage.setItem(key, value)]; [throws] is the exception the
    medium raises for this call, if any. The item is stored or the call
    throws, never both. *)
Definition setItem (key value : string) (throws : option Thrown)
    (storage : gmap string string) : Thrown + gmap string string :=
  match throws with
  | Some e => inl e
  | None => inr (<[key := value]> storage)
  end.

Section Hook.

(** [JSON.stringify] on state objects. *)
Variable stringify : gmap string JsVal → string.

(** The updater that [updateState(updates)] passes to [setState], applied
    to the current state; the hook's [state] is its result. *)
Definition updateState (updates : gmap string JsVal) (throws : option Thrown)
    (hook : Hook) (storage : gmap string string) : Hook * gmap string string :=
  let newState := spread (state hook) (VObj updates) in
  match setItem SESSION_STORAGE_KEY (stringify newState) throws storage with
  | inr storage =>
      ({| state := newState; isLoading := isLoading hook; error := error hook |},
       storage)
  | inl e =>
      ({| state := newState; isLoading := isLoading hook;
          error := Some ("Failed to save: " +:+ describe e) |},
       storage)
  end.

End Hook.

(** *** Initialisation and reset *)

(** [defaultState]; [sessionId] is the [local_...] id computed when the
    module is loaded. *)
Definition defaultState (sessionId : string) : gmap string JsVal :=
  {[ "sessionId" := VStr sessionId;
     "activeTab" := VStr "grid";
     "excelToggle" := VBool false;
     "sidebarCollapsed" := VBool false;
     "fileConfigs" :=
       VObj {[ "tableName" := VStr "Table1"; "sheetName" := VStr "Sheet1" ]};
     "docProps" :=
       VObj {[ "title" := VStr ""; "subject" := VStr ""; "keywords" := VStr "";
               "createdBy" := VStr ""; "description" := VStr "";
               "lastModifiedBy" := VStr ""; "category" := VStr "";
               "revision" := VStr "" ]};
     "pqQuery" :=
       VObj {[ "queryMashup" := VStr ""; "refreshOnOpen" := VBool false;
               "queryName" := VStr "Query1" ]};
     "gridView" :=
       VObj {[ "isGridView" := VBool false; "promoteHeaders" := VBool false;
               "adjustColumnNames" := VBool false ]};
     "gridData" :=
       VObj {[ "data" := VArr [VArr [VStr ""; VStr ""; VStr ""];
                               VArr [VStr ""; VStr ""; VStr ""];
                               VArr [VStr ""; VStr ""; VStr ""]];
               "rows" := VNum 3; "cols" := VNum 3 ]};
     "uploads" := VArr [] ]}.

(** An item that passes [if (savedState)]: present and not empty. *)
Definition truthy_item (item : option string) : option string :=
  match item with
  | Some s => if String.eqb s "" then None else Some s
  | None => None
  end.

Section Lifecycle.

(** [JSON.stringify] on state objects, and [JSON.parse] on the texts kept
    under the session key: [inl e] when it throws, [inr st] for the object
    it yields. *)
Variable stringify : gmap string JsVal → string.
Variable parse : string → Thrown + gmap string JsVal.

(** The id of [defaultState]. *)
Variable localId : string.

(** The [catch] blocks' attempt to store the defaults; its own failure is
    only logged. *)
Definition save_defaults (throws : option Thrown) (storage : gmap string string)
  : gmap string string :=
  match setItem SESSION_STORAGE_KEY (stringify (defaultState localId)) throws storage with
  | inr storage => storage
  | inl _ => storage
  end.

(** [initializeSession], run once when the hook mounts: [throws_save] is
    what the [setItem] of the first-visit branch throws, [throws_fallback]
    what the one of the [catch] block throws. *)
Definition initializeSession (throws_save throws_fallback : option Thrown)
    (storage : gmap string string) : Hook * gmap string string :=
  let failed (e : Thrown) :=
    ({| state := defaultState localId; isLoading := false;
        error := Some ("Failed to initialize: " +:+ describe e) |},
     save_defaults throws_fallback storage) in
  match truthy_item (storage !! SESSION_STORAGE_KEY) with
  | Some savedState =>
      match parse savedState with
      | inr parsedState =>
          ({| state := parsedState; isLoading := false; error := None |}, storage)
      | inl e => failed e
      end
  | None =>
      match setItem SESSION_STORAGE_KEY (stringify (defaultState localId))
                    throws_save storage with
      | inr storage =>
          ({| state := defaultState localId; isLoading := false; error := None |},
           storage)
      | inl e => failed e
      end
  end.

(** [resetSession]; [newId] is the freshly computed [local_...] id. *)
Definition resetSession (newId : string) (throws_save throws_fallback : option Thrown)
    (hook : Hook) (storage : gmap string string) : Hook * gmap string string :=
  let newState :=
    spread (defaultState localId) (VObj {[ "sessionId" := VStr newId ]}) in
  match setItem SESSION_STORAGE_KEY (stringify newState) throws_save storage with
  | inr storage =>
      ({| state := newState; isLoading := isLoading hook; error := None |}, storage)
  | inl e =>
      ({| state := defaultState localId; isLoading := isLoading hook;
          error := Some ("Reset failed: " +:+ describe e) |},
       save_defaults throws_fallback storage)
  end.

End Lifecycle.

(** *** What the App component renders *)

Inductive Screen : Type :=
  | Initializing
  | InitFailed (error : string)
  | Editor (state : gmap string JsVal).

(** The three-way choice at the top of [App]'s render. *)
Definition render (hook : Hook) : Screen :=
  if isLoading hook then Initializing
  else
    match error hook with
    | Some e => if String.eqb e "" then Editor (state hook) else InitFailed e
    | None => Editor (state hook)
    end.

End LocalStore.

(** ** Sample data *)

(** A well-formed identifier, a store holding one fresh record, and a few
    requests, used for the concrete evaluations below. *)
Module Samples.

Import Server.
Local Open Scope Z_scope.

Definition sample_id : string := "123e4567-e89b-42d3-a456-426614174000".
Definition fresh : UserSession := new_UserSession sample_id 1000 1000.
Definition one_session : gmap string UserSession := {[ sample_id := fresh ]}.

Definition table_tab : JsVal := VObj {[ "activeTab" := VStr "table" ]}.
Definition empty_tab : JsVal := VObj {[ "activeTab" := VStr "" ]}.
Definition bad_grid : JsVal := VObj {[ "gridData" := VStr "x" ]}.

Definition notes_txt : File :=
  {| originalname := "notes.txt"; mimetype := "text/plain"; size := 12;
     data := "aGVsbG8gd29ybGQh" |}.
Definition big_csv : File :=
  {| originalname := "big.csv"; mimetype := "text/csv"; size := fileSize + 1;
     data := "" |}.
Definition small_csv : File :=
  {| originalname := "a.csv"; mimetype := "text/csv"; size := 3;
     data := "YSxi" |}.

End Samples.

(** A record is expired at [now] when [now - lastActivity > maxAge]. *)
Definition expired (now maxAge : Z) (s : Server.UserSession) : Prop :=
  (maxAge < now - Server.lastActivity s)%Z.

(** The invariant of the store at clock reading [clock]: every record sits
    under its own [sessionId], was not active before it was created, and
    was last active no later than [clock]. *)
Definition store_inv (clock : Z) (sessions : gmap string Server.UserSession) : Prop :=
  ∀ id s, sessions !! id = Some s →
    Server.sessionId s = id ∧
    (Server.createdAt s ≤ Server.lastActivity s)%Z ∧
    (Server.lastActivity s ≤ clock)%Z.

(** The last of the readings [ts] taken after [t]. *)
Definition latest (t : Z) (ts : list Z) : Z := foldl (λ _ t', t') t ts.

(** [creates r id]: the event [r] constructs the record stored under [id]. *)
Definition creates (r : Server.Request) (id : string) : Prop :=
  match r with
  | Server.ReqInit uuid _ _ => uuid = id
  | _ => False
  end.

(** A record [s'] obtained from [s] by the methods that touch it, called at
    clock readings between [lo] and [hi]. *)
Definition touched (lo hi : Z) (s s' : Server.UserSession) : Prop :=
  Server.sessionId s' = Server.sessionId s ∧
  Server.createdAt s' = Server.createdAt s ∧
  (Server.lastActivity s' = Server.lastActivity s ∨
   (lo ≤ Server.lastActivity s' ≤ hi)%Z).

(** The reply of a successful creation, if [create] is one. *)
Definition created (create : Client.Outcome) : option Client.Reply :=
  match create with
  | Client.Resolved data => if Client.success data then Some data else None
  | Client.Rejected => None
  end.

(** A push is pending for session [id], due [Client.wait] after time [t],
    and it is the only timer. *)
Definition pending (id : string) (t : Z) (b : Client.Browser) : Prop :=
  Client.isInitialized (Client.manager b) = true ∧
  Client.truthy_id (Client.sessionId (Client.manager b)) = Some id ∧
  ∃ h, Client.timeouts b = [(h, (t + Client.wait)%Z)] ∧
       Client.syncTimeout (Client.manager b) = Some h.

(** A manager with a live session and its poll running, nothing pending. *)
Definition active_browser : Client.Browser :=
  {| Client.manager :=
       {| Client.sessionId := Some Samples.sample_id;
          Client.syncTimeout := None;
          Client.validationInterval := Some 1%nat;
          Client.isInitialized := true;
          Client.state := Server.default_uiState |};
     Client.storedId := Some Samples.sample_id;
     Client.timeouts := [];
     Client.intervals := [1%nat];
     Client.nextHandle := 2%nat;
     Client.fetched := [] |}.

Definition not_found : Client.Reply :=
  {| Client.success := false; Client.replySessionId := "";
     Client.replyUiState := None |}.

Definition new_session : Client.Reply :=
  {| Client.success := true;
     Client.replySessionId := "9b2e4567-e89b-42d3-a456-426614174abc";
     Client.replyUiState := Some (VObj Server.default_uiState) |}.

Definition three_writes : list (Z * JsVal) :=
  [(0%Z, VObj {[ "activeTab" := VStr "table" ]});
   (200%Z, VObj {[ "excelToggle" := VBool true ]});
   (699%Z, VObj {[ "activeTab" := VStr "pq-query" ]})].

(** ** Auxiliary notions for the further properties *)

(** ASCII upper-casing, for the [i] flag of [uuidRegex]. *)
Definition upcase (c : ascii) : ascii :=
  if Server.in_range 97 122 c then ascii_of_nat (nat_of_ascii c - 32) else c.

Fixpoint upcase_string (s : string) : string :=
  match s with
  | EmptyString => EmptyString
  | String c s' => String (upcase c) (upcase_string s')
  end.

(** [o.k] on a state object. *)
Definition field (o : gmap string JsVal) (k : string) : JsVal :=
  default VUndefined (o !! k).

(** The shape the validators maintain on a record: [workspaceData] has
    exactly the four allowed keys, each holding an array; a truthy
    [uiState.activeTab] is one of the three tabs; [uiState.excelToggle] is
    a boolean or undefined. *)
Definition workspace_shape (s : Server.UserSession) : Prop :=
  (∀ k, k ∈ Server.allowedKeys → ∃ l, Server.workspaceData s !! k = Some (VArr l)) ∧
  (∀ k v, Server.workspaceData s !! k = Some v → k ∈ Server.allowedKeys).

Definition ui_shape (s : Server.UserSession) : Prop :=
  (truthy (field (Server.uiState s) "activeTab") = true →
   includes Server.tabs (field (Server.uiState s) "activeTab") = true) ∧
  is_undefined (field (Server.uiState s) "excelToggle")
  || typeof_boolean (field (Server.uiState s) "excelToggle") = true.

Definition well_shaped (s : Server.UserSession) : Prop :=
  workspace_shape s ∧ ui_shape s.

(** The entry appended to [uploads] for [file] received at [t]. *)
Definition uploadInfo (file : Server.File) (t : Z) : JsVal :=
  VObj {[ "originalName" := VStr (Server.originalname file);
          "mimetype" := VStr (Server.mimetype file);
          "size" := VNum (Server.size file);
          "uploadedAt" := VNum t;
          "data" := VStr (Server.data file) ]}.

(** At most one validation poll is live, and it is the one the manager
    tracks; at most one debounce timer is pending, and it is the one the
    manager tracks. *)
Definition poll_ok (live : list nat) (tracked : option nat) : Prop :=
  live = [] ∨ ∃ h, live = [h] ∧ tracked = Some h.

Definition push_ok (waiting : list (nat * Z)) (tracked : option nat) : Prop :=
  waiting = [] ∨ ∃ h d, waiting = [(h, d)] ∧ tracked = Some h.

Definition tidy (b : Client.Browser) : Prop :=
  poll_ok (Client.intervals b) (Client.validationInterval (Client.manager b)) ∧
  push_ok (Client.timeouts b) (Client.syncTimeout (Client.manager b)).

(** The state the manager holds after adopting the reply [d]. *)
Definition adopted (d : Client.Reply) (st : gmap string JsVal) : gmap string JsVal :=
  match Client.replyUiState d with
  | Some uiState => spread ∅ uiState
  | None => st
  end.

(** The requests [init] sends before it creates a session: the GET of the
    remembered id, if there is one. *)
Definition resume_attempt (b : Client.Browser) : list Client.Fetch :=
  match Client.truthy_id (Client.storedId b) with
  | Some id => [Client.GetSession id]
  | None => []
  end.

(** A request that threw or was answered with [success] false. *)
Definition failed (o : Client.Outcome) : bool :=
  match o with
  | Client.Rejected => true
  | Client.Resolved d => negb (Client.success d)
  end.

Definition later_writes : list (Z * JsVal) :=
  [(1500%Z, VObj {[ "sidebarCollapsed" := VBool true ]});
   (1600%Z, VObj {[ "activeTab" := VStr "grid" ]})].

(** A run of writes whose [setItem] calls all succeed. *)
Definition write_all (stringify : gmap string JsVal → string)
    (writes : list (gmap string JsVal))
    (start : LocalStore.Hook * gmap string string)
  : LocalStore.Hook * gmap string string :=
  foldl (λ acc updates, LocalStore.updateState stringify updates None acc.1 acc.2)
        start writes.

(** A hook that has finished loading without error, holding the defaults. *)
Definition loaded_hook : LocalStore.Hook :=
  {| LocalStore.state := LocalStore.defaultState "local_1_abc";
     LocalStore.isLoading := false; LocalStore.error := None |}.

(** A stand-in serialiser for the concrete evaluations: every state is
    written as one fixed text, which reads back as [loaded_hook]'s state
    with the table tab selected; any other text is malformed. *)
Definition sample_text : string := "{...}".

Definition sample_saved : gmap string JsVal :=
  spread (LocalStore.state loaded_hook) (VObj {[ "activeTab" := VStr "table" ]}).

Definition sample_stringify (st : gmap string JsVal) : string := sample_text.

Definition sample_parse (text : string) : LocalStore.Thrown + gmap string JsVal :=
  if String.eqb text sample_text then inr sample_saved
  else inl (LocalStore.ThrownError "Unexpected token").

(** Further sample stores: two sessions; three sessions last active at
    different times; a session that already holds one upload. *)
Definition other_id : string := "9b2e4567-e89b-42d3-a456-426614174abc".
Definition third_id : string := "0c3e4567-e89b-42d3-a456-426614174def".

Definition two_sessions : gmap string Server.UserSession :=
  Server.run [Server.ReqInit Samples.sample_id 1000 1000;
              Server.ReqInit other_id 1500 1500] ∅.

Definition three_sessions : gmap string Server.UserSession :=
  Server.run [Server.ReqInit Samples.sample_id 1000 1000;
              Server.ReqInit other_id 50000000 50000000;
              Server.ReqInit third_id 100000000 100000000] ∅.

Definition uploaded_once : list Server.Request :=
  [Server.ReqInit Samples.sample_id 1000 1000;
   Server.ReqUpload 1500 1501 Samples.sample_id (Some Samples.small_csv)].

Definition after_first_upload : Server.UserSession :=
  {| Server.sessionId := Samples.sample_id;
     Server.createdAt := 1000;
     Server.lastActivity := 1501;
     Server.uiState := Server.default_uiState;
     Server.workspaceData :=
       <["uploads" := VArr [uploadInfo Samples.small_csv 1500]]>
         Server.default_workspaceData |}.

Definition second_xlsx : Server.File :=
  {| Server.originalname := "b.xlsx";
     Server.mimetype :=
       "application/vnd.openxmlformats-officedocument.spreadsheetml.sheet";
     Server.size := 2048; Server.data := "UEsDBA==" |}.

(** A group of writes as actions of the manager. *)
Definition write_actions (ws : list (Z * JsVal)) : list Client.Action :=
  List.map (λ w, Client.DoWrite w.1 w.2) ws.

(** The poll callback after an unsuccessful reply, up to the point where
    the creation request of [init] is in flight: the session is invalidated
    and POST /api/session/init has been sent. *)
Definition creation_in_flight (id : string) (b : Client.Browser) : Client.Browser :=
  Client.fetch Client.PostInit
    (Client.invalidate (Client.fetch (Client.GetSession id) b)).

(** The rest of the callback once the creation request has settled with
    [create]. *)
Definition creation_settled (create : Client.Outcome) (b : Client.Browser)
  : Client.Browser :=
  (Client.init_finish (Client.createNewSession_settle create b)).2.

(** * Properties *)

(** ** Object spread *)

Lemma spread_lookup_patch base patch k v :
  own_props patch !! k = Some v → spread base patch !! k = Some v.
Proof. intros H. unfold spread. by apply lookup_union_Some_l. Qed.

Lemma spread_lookup_base base patch k :
  own_props patch !! k = None → spread base patch !! k = base !! k.
Proof. intros H. unfold spread. by apply lookup_union_r. Qed.

(** ** The remote session store *)

Section RemoteStore.

Import Server Samples.
Local Open Scope Z_scope.

Implicit Types (sessions : gmap string UserSession) (s : UserSession).
Implicit Types (id : string) (now : Z).

(** *** Cleanup *)

Lemma sweep_loop_lookup_Some now age (l : list (string * UserSession)) sessions id s :
  foldr (λ entry acc,
           if now - lastActivity entry.2 >? age then delete entry.1 acc else acc)
        sessions l !! id = Some s →
  sessions !! id = Some s ∧ ∀ s', (id, s') ∈ l → ¬ expired now age s'.
Proof.
  induction l as [|[k x] l IH]; simpl.
  - intros H. split; [done|]. intros s' Hin. by apply elem_of_nil in Hin.
  - destruct (Z.gtb_spec (now - lastActivity x) age) as [Hexp|Hkeep].
    + intros H. apply lookup_delete_Some in H as [Hne H].
      destruct (IH H) as [H1 H2]. split; [done|].
      intros s' [Heq|Hin]%elem_of_cons; [congruence | by apply H2].
    + intros H. destruct (IH H) as [H1 H2]. split; [done|].
      intros s' [Heq|Hin]%elem_of_cons; [| by apply H2].
      inversion Heq; subst. unfold expired. lia.
Qed.

Lemma sweep_loop_lookup_keep now age (l : list (string * UserSession)) sessions id s :
  sessions !! id = Some s →
  (∀ s', (id, s') ∈ l → ¬ expired now age s') →
  foldr (λ entry acc,
           if now - lastActivity entry.2 >? age then delete entry.1 acc else acc)
        sessions l !! id = Some s.
Proof.
  intros Hs. induction l as [|[k x] l IH]; simpl; intros Hl; [done|].
  assert (IH' := IH (λ s' Hin, Hl s' (list_elem_of_further _ _ _ Hin))).
  destruct (Z.gtb_spec (now - lastActivity x) age) as [Hexp|Hkeep]; [|done].
  rewrite lookup_delete_ne; [done|].
  intros ->. apply (Hl x); [apply list_elem_of_here | done].
Qed.

Lemma sweepExpired_lookup now age sessions id s :
  sweepExpired now age sessions !! id = Some s ↔
  sessions !! id = Some s ∧ now - lastActivity s ≤ age.
Proof.
  unfold sweepExpired. split.
  - intros H. apply sweep_loop_lookup_Some in H as [H1 H2]. split; [done|].
    assert (¬ expired now age s) as Hn
      by (apply H2; by apply elem_of_map_to_list).
    unfold expired in Hn. lia.
  - intros [H1 H2]. apply sweep_loop_lookup_keep; [done|].
    intros s' Hin%elem_of_map_to_list. unfold expired.
    assert (s' = s) as -> by congruence. lia.
Qed.

Lemma sweepExpired_removed now age sessions id s :
  sessions !! id = Some s → expired now age s →
  sweepExpired now age sessions !! id = None.
Proof.
  intros Hs Hexp.
  destruct (sweepExpired now age sessions !! id) as [s'|] eqn:E; [|done].
  apply sweepExpired_lookup in E as [E1 E2].
  assert (s' = s) as -> by congruence. unfold expired in Hexp. lia.
Qed.

(** C4.  The sweep keeps exactly the records with
    [now - lastActivity <= age] and removes those with
    [now - lastActivity > age]; a later GET of a removed, well-formed id
    answers 404 "Session not found". *)
Theorem sweep_removes_exactly_expired now age sessions :
  (∀ id s, sweepExpired now age sessions !! id = Some s ↔
           sessions !! id = Some s ∧ now - lastActivity s ≤ age) ∧
  (∀ id s t, sessions !! id = Some s → now - lastActivity s > age →
             validateSessionId id = true →
             sweepExpired now age sessions !! id = None ∧
             get_session t id (sweepExpired now age sessions)
             = (failure 404 "Session not found", sweepExpired now age sessions)).
Proof.
  split; [intros; apply sweepExpired_lookup|].
  intros id s t Hs Hexp Hvalid.
  assert (sweepExpired now age sessions !! id = None) as Hgone
    by (eapply sweepExpired_removed; [done | unfold expired; lia]).
  split; [done|]. unfold get_session. by rewrite Hvalid, Hgone.
Qed.

Lemma sweep_removes_exactly_expired_witness :
  sweepExpired 90000000 maxAge one_session !! sample_id = None ∧
  status (get_session 90000001 sample_id (cleanupSessions 90000000 one_session)).1 = 404.
Proof.
  destruct (sweep_removes_exactly_expired 90000000 maxAge one_session) as [_ H].
  destruct (H sample_id fresh 90000001) as [H1 H2].
  - reflexivity.
  - vm_compute. reflexivity.
  - reflexivity.
  - split; [exact H1|]. unfold cleanupSessions. rewrite H2. reflexivity.
Defined.

(** *** State updates *)

Lemma put_state_invalid_uiState t_ui t_ws id ui ws sessions s :
  validateSessionId id = true → sessions !! id = Some s →
  is_undefined ui = false → validateUiState ui = false →
  put_state t_ui t_ws id ui ws sessions
  = (failure 400 "Invalid UI state data", sessions).
Proof.
  intros Hid Hs Hdef Hbad. unfold put_state. by rewrite Hid, Hs, Hdef, Hbad.
Qed.

Lemma put_state_invalid_workspaceData_alone t_ui t_ws id ws sessions s :
  validateSessionId id = true → sessions !! id = Some s →
  is_undefined ws = false → validateWorkspaceData ws = false →
  put_state t_ui t_ws id VUndefined ws sessions
  = (failure 400 "Invalid workspace data", sessions).
Proof.
  intros Hid Hs Hdef Hbad. unfold put_state. rewrite Hid, Hs, Hdef, Hbad. simpl.
  by rewrite insert_id.
Qed.

Lemma put_state_invalid_workspaceData_after_uiState t_ui t_ws id ui ws sessions s :
  validateSessionId id = true → sessions !! id = Some s →
  is_undefined ui = false → validateUiState ui = true →
  is_undefined ws = false → validateWorkspaceData ws = false →
  put_state t_ui t_ws id ui ws sessions
  = (failure 400 "Invalid workspace data",
     <[id := updateUiState t_ui ui s]> sessions).
Proof.
  intros Hid Hs Hui Hok Hws Hbad. unfold put_state.
  by rewrite Hid, Hs, Hui, Hok, Hws, Hbad.
Qed.

(** C1.  The handler evaluated on a combined patch whose [uiState] part is
    valid and whose [workspaceData] part is not: the answer is 400 "Invalid
    workspace data", yet the stored record has already taken the [uiState]
    patch and a new [lastActivity]. *)
Theorem put_state_rejects_after_applying_uiState :
  validateUiState table_tab = true ∧
  validateWorkspaceData bad_grid = false ∧
  one_session !! sample_id = Some fresh ∧
  (put_state 2000 2001 sample_id table_tab bad_grid one_session).1
  = failure 400 "Invalid workspace data" ∧
  (put_state 2000 2001 sample_id table_tab bad_grid one_session).2 !! sample_id
  = Some (updateUiState 2000 table_tab fresh) ∧
  uiState fresh !! "activeTab" = Some (VStr "grid") ∧
  uiState (updateUiState 2000 table_tab fresh) !! "activeTab" = Some (VStr "table") ∧
  lastActivity fresh = 1000 ∧
  lastActivity (updateUiState 2000 table_tab fresh) = 2000.
Proof.
  assert (put_state 2000 2001 sample_id table_tab bad_grid one_session
          = (failure 400 "Invalid workspace data",
             <[sample_id := updateUiState 2000 table_tab fresh]> one_session)) as E
    by (by apply put_state_invalid_workspaceData_after_uiState).
  rewrite E. simpl. rewrite lookup_insert_eq. repeat split; reflexivity.
Qed.

(** C10.  A [uiState] patch whose [activeTab] is falsy (for instance the
    empty string) and whose [excelToggle], if any, is a boolean passes
    validation: the update answers 200 and the stored [activeTab] is that
    value. *)
Theorem falsy_activeTab_accepted t_ui t_ws id sessions s props v ws :
  validateSessionId id = true →
  sessions !! id = Some s →
  props !! "activeTab" = Some v →
  truthy v = false →
  is_undefined (get_prop (VObj props) "excelToggle")
  || typeof_boolean (get_prop (VObj props) "excelToggle") = true →
  is_undefined ws || validateWorkspaceData ws = true →
  includes tabs v = false ∧
  validateUiState (VObj props) = true ∧
  status (put_state t_ui t_ws id (VObj props) ws sessions).1 = 200 ∧
  ∃ s', (put_state t_ui t_ws id (VObj props) ws sessions).2 !! id = Some s' ∧
        uiState s' !! "activeTab" = Some v.
Proof.
  intros Hid Hs Hv Hfalsy Htoggle Hws.
  assert (get_prop (VObj props) "activeTab" = v) as Hget
    by (unfold get_prop; simpl; by rewrite Hv).
  assert (includes tabs v = false) as Hout by (by destruct v as [| |[]| |[]| |]).
  assert (validateUiState (VObj props) = true) as Hok.
  { unfold validateUiState. simpl. rewrite Hget, Hfalsy. simpl.
    apply orb_true_iff in Htoggle as [->| ->]; [done|].
    by rewrite andb_false_r. }
  split; [done|]. split; [done|].
  unfold put_state. rewrite Hid, Hs, Hok. simpl.
  assert (uiState (updateUiState t_ui (VObj props) s) !! "activeTab" = Some v) as Hui
    by (simpl; by apply spread_lookup_patch).
  apply orb_true_iff in Hws as [Hundef|Hvalid].
  - rewrite Hundef. simpl. split; [done|]. eexists. by rewrite lookup_insert_eq.
  - rewrite Hvalid, andb_false_r. simpl. split; [done|].
    eexists. rewrite lookup_insert_eq. split; [done|].
    by destruct (is_undefined ws).
Qed.

Lemma falsy_activeTab_accepted_witness :
  status (put_state 2000 2001 sample_id empty_tab VUndefined one_session).1 = 200 ∧
  ∃ s', (put_state 2000 2001 sample_id empty_tab VUndefined one_session).2 !! sample_id
        = Some s' ∧
        uiState s' !! "activeTab" = Some (VStr "").
Proof.
  destruct (falsy_activeTab_accepted 2000 2001 sample_id one_session fresh
              {[ "activeTab" := VStr "" ]} (VStr "") VUndefined)
    as (_ & _ & H1 & H2); try reflexivity.
  split; [exact H1 | exact H2].
Defined.

(** *** Reset *)

(** C5, as stated, fails when the clock has not advanced: a record created,
    reset and fetched within one millisecond comes back with the
    [lastActivity] it had before the reset. *)
Lemma reset_get_same_instant :
  one_session !! sample_id = Some fresh ∧
  (get_session 1000 sample_id (delete_reset 1000 sample_id one_session).2).1
  = {| status := 200; success := true; message := None;
       payload := Session fresh |} ∧
  ¬ (lastActivity fresh < lastActivity fresh).
Proof.
  split; [reflexivity|]. split; [|lia].
  unfold delete_reset, get_session. simpl. unfold one_session.
  rewrite lookup_singleton_eq. simpl. rewrite lookup_insert_eq. reflexivity.
Qed.

(** C5, amended.  For an existing record, reset followed by GET answers 200
    with the same [sessionId] and [createdAt], the default [uiState] and
    [workspaceData], and [lastActivity] equal to the clock reading of the
    GET: not below its earlier value when the clock has not run backwards,
    and above it exactly when the clock has advanced past it. *)
Theorem reset_then_get t_reset t_get id sessions s :
  validateSessionId id = true →
  sessions !! id = Some s →
  ∃ s',
    (get_session t_get id (delete_reset t_reset id sessions).2).1
    = {| status := 200; success := true; message := None; payload := Session s' |} ∧
    (get_session t_get id (delete_reset t_reset id sessions).2).2 !! id = Some s' ∧
    sessionId s' = sessionId s ∧
    createdAt s' = createdAt s ∧
    uiState s' = default_uiState ∧
    workspaceData s' = default_workspaceData ∧
    uiState s' = uiState (new_UserSession id t_reset t_reset) ∧
    workspaceData s' = workspaceData (new_UserSession id t_reset t_reset) ∧
    lastActivity s' = t_get ∧
    (lastActivity s ≤ t_get → lastActivity s ≤ lastActivity s') ∧
    (lastActivity s < lastActivity s' ↔ lastActivity s < t_get).
Proof.
  intros Hid Hs.
  exists (updateLastActivity t_get (resetSession t_reset s)).
  unfold delete_reset. rewrite Hid, Hs. simpl.
  unfold get_session. rewrite Hid, lookup_insert_eq. simpl.
  rewrite lookup_insert_eq. repeat split; auto.
Qed.

Lemma reset_then_get_witness :
  ∃ s',
    (get_session 3000 sample_id (delete_reset 2000 sample_id one_session).2).1
    = {| status := 200; success := true; message := None; payload := Session s' |} ∧
    createdAt s' = 1000 ∧ lastActivity s' = 3000 ∧ uiState s' = default_uiState.
Proof.
  destruct (reset_then_get 2000 3000 sample_id one_session fresh)
    as (s' & H1 & _ & _ & H4 & H5 & _ & _ & _ & H9 & _); try reflexivity.
  exists s'. repeat split; assumption.
Defined.

(** *** The identifier gate *)

Lemma malformed_id_gate id sessions :
  validateSessionId id = false →
  (∀ now, get_session now id sessions
          = (failure 400 "Invalid session ID format", sessions)) ∧
  (∀ t_ui t_ws ui ws, put_state t_ui t_ws id ui ws sessions
          = (failure 400 "Invalid session ID format", sessions)) ∧
  (∀ now, delete_reset now id sessions
          = (failure 400 "Invalid session ID format", sessions)) ∧
  (∀ t1 t2 req_file, upload_handler t1 t2 id req_file sessions
          = (failure 400 "Invalid session ID format", sessions)).
Proof.
  intros Hid. unfold get_session, put_state, delete_reset, upload_handler.
  rewrite Hid. done.
Qed.

Lemma error_handler_status e :
  status (error_handler e) = 400 ∨ status (error_handler e) = 500.
Proof.
  destruct e as [code|msg]; simpl; [|by right].
  destruct (String.eqb code "LIMIT_FILE_SIZE"); [by left | by right].
Qed.

Lemma post_upload_malformed_id t1 t2 id part sessions :
  validateSessionId id = false →
  (post_upload t1 t2 id part sessions).2 = sessions ∧
  status (post_upload t1 t2 id part sessions).1 ≠ 404 ∧
  (status (post_upload t1 t2 id part sessions).1 = 400 ∨
   ∃ file, part = Some file ∧ (mimetype file ∉ allowedTypes) ∧
           (post_upload t1 t2 id part sessions).1
           = failure 500 "Internal server error").
Proof.
  intros Hid. unfold post_upload, upload_single.
  destruct (malformed_id_gate id sessions Hid) as (_ & _ & _ & Hup).
  destruct part as [file|]; [|rewrite Hup; simpl; split; [done|]; split; [done | by left]].
  unfold fileFilter. case_bool_decide as Htype.
  - destruct (size file >=? fileSize); [simpl | rewrite Hup; simpl];
      (split; [done|]; split; [done | by left]).
  - simpl. split; [done|]. split; [done|]. right. by exists file.
Qed.

(** C6.  The upload route evaluated on a malformed id and a file of a
    disallowed type: the multipart middleware runs before the handler's
    identifier check, its error reaches the error handling middleware, and
    the answer is 500 "Internal server error", not 400. *)
Theorem upload_malformed_id_disallowed_type :
  validateSessionId "not-a-uuid" = false ∧
  (mimetype notes_txt ∉ allowedTypes) ∧
  post_upload 2000 2001 "not-a-uuid" (Some notes_txt) one_session
  = (failure 500 "Internal server error", one_session) ∧
  status (post_upload 2000 2001 "not-a-uuid" (Some notes_txt) one_session).1 ≠ 400.
Proof.
  split; [reflexivity|]. split; [by apply (bool_decide_eq_false_1 (mimetype notes_txt ∈ allowedTypes))|].
  split; [reflexivity | done].
Qed.

(** *** Upload limits *)

(** C8, as stated, fails on the status of an oversized file: the error
    handling middleware answers 400 for [LIMIT_FILE_SIZE]. *)
Lemma oversized_upload_is_400 :
  size big_csv > fileSize ∧
  (post_upload 2000 2001 sample_id (Some big_csv) one_session).1
  = failure 400 "File too large. Maximum size is 10MB." ∧
  status (post_upload 2000 2001 sample_id (Some big_csv) one_session).1 ≠ 413.
Proof. split; [reflexivity|]. split; [reflexivity | done]. Qed.

Lemma upload_handler_200 t1 t2 id req_file sessions :
  status (upload_handler t1 t2 id req_file sessions).1 = 200 → is_Some req_file.
Proof.
  unfold upload_handler. destruct req_file as [file|]; [by eexists|].
  destruct (validateSessionId id); simpl; [|done].
  by destruct (sessions !! id).
Qed.

Lemma disallowed_type_is_500 :
  validateSessionId sample_id = true ∧
  post_upload 2000 2001 sample_id (Some notes_txt) one_session
  = (failure 500 "Internal server error", one_session).
Proof. split; reflexivity. Qed.

(** C8, amended.  A file of an allowed type larger than the cap of
    10 * 1024 * 1024 bytes is refused with 400 and the store is untouched; a
    request without a file is refused with 400 when the id is malformed or
    the session exists, and with 404 otherwise; an upload answered with 200
    carried a file of one of the three allowed mimetypes, no larger than the
    cap. *)
Theorem upload_rejections t1 t2 id part sessions :
  fileSize = 10485760 ∧
  (∀ file, part = Some file → mimetype file ∈ allowedTypes → size file > fileSize →
     post_upload t1 t2 id part sessions
     = (failure 400 "File too large. Maximum size is 10MB.", sessions)) ∧
  (part = None →
     (post_upload t1 t2 id part sessions).2 = sessions ∧
     status (post_upload t1 t2 id part sessions).1
     = if validateSessionId id && bool_decide (sessions !! id = None)
       then 404 else 400) ∧
  (status (post_upload t1 t2 id part sessions).1 = 200 →
     ∃ file, part = Some file ∧ mimetype file ∈ allowedTypes ∧
             size file ≤ fileSize).
Proof.
  split; [reflexivity|]. split; [|split].
  - intros file -> Htype Hbig. unfold post_upload, upload_single, fileFilter.
    rewrite bool_decide_eq_true_2 by done.
    destruct (Z.geb_spec (size file) fileSize); [done | lia].
  - intros ->. unfold post_upload, upload_handler. simpl.
    destruct (validateSessionId id); simpl; [|done].
    destruct (sessions !! id) as [s|] eqn:E; simpl;
      (split; [done|]); try case_bool_decide; done.
  - unfold post_upload, upload_single, fileFilter.
    destruct part as [file|].
    + case_bool_decide as Htype; [|done].
      destruct (Z.geb_spec (size file) fileSize) as [|Hlt]; [done|].
      intros _. exists file. split; [done|]. split; [done | lia].
    + intros [file Hfile]%upload_handler_200. done.
Qed.

Lemma upload_rejections_witness :
  post_upload 2000 2001 sample_id (Some big_csv) one_session
  = (failure 400 "File too large. Maximum size is 10MB.", one_session) ∧
  status (post_upload 2000 2001 sample_id None one_session).1 = 400 ∧
  ∃ file, Some small_csv = Some file ∧ mimetype file ∈ allowedTypes ∧
          size file ≤ fileSize.
Proof.
  split; [|split].
  - destruct (upload_rejections 2000 2001 sample_id (Some big_csv) one_session)
      as (_ & H & _ & _).
    apply (H big_csv); [reflexivity | by apply (bool_decide_eq_true_1 (mimetype big_csv ∈ allowedTypes)) | reflexivity].
  - destruct (upload_rejections 2000 2001 sample_id None one_session)
      as (_ & _ & H & _).
    destruct (H eq_refl) as [_ ->]. reflexivity.
  - destruct (upload_rejections 2000 2001 sample_id (Some small_csv) one_session)
      as (_ & _ & _ & H).
    apply H. reflexivity.
Defined.

(** *** Invariants of the store *)

Lemma monotone_from_app t l1 l2 :
  monotone_from t (l1 ++ l2)
  = monotone_from t l1 && monotone_from (latest t l1) l2.
Proof.
  revert t. induction l1 as [|x l1 IH]; intros t; simpl; [done|].
  rewrite IH. unfold latest. simpl. by rewrite andb_assoc.
Qed.

Lemma monotone_from_latest t l :
  monotone_from t l = true → t ≤ latest t l.
Proof.
  revert t. induction l as [|x l IH]; intros t; unfold latest; simpl; [lia|].
  intros [H1 H2]%andb_true_iff. apply Z.leb_le in H1.
  specialize (IH x H2). unfold latest in IH. lia.
Qed.

Lemma monotone_from_head l :
  monotone l = true → monotone_from (List.hd 0 l) l = true.
Proof.
  destruct l as [|x l]; simpl; [done|]. intros ->. by rewrite Z.leb_refl.
Qed.

Lemma store_inv_advance c c' sessions :
  store_inv c sessions → c ≤ c' → store_inv c' sessions.
Proof.
  intros Hinv Hle id s Hs. destruct (Hinv id s Hs) as (?&?&?).
  repeat split; [done | done | lia].
Qed.

Lemma store_inv_insert c sessions id s :
  store_inv c sessions →
  sessionId s = id → createdAt s ≤ lastActivity s → lastActivity s ≤ c →
  store_inv c (<[id := s]> sessions).
Proof.
  intros Hinv H1 H2 H3 k x [[<- <-]|[Hne Hk]]%lookup_insert_Some; [done|].
  by apply Hinv.
Qed.

Lemma store_inv_sweep c now age sessions :
  store_inv c sessions → store_inv c (sweepExpired now age sessions).
Proof.
  intros Hinv id s [Hs _]%sweepExpired_lookup. by apply Hinv.
Qed.

Lemma store_inv_touch c lo hi sessions id s s' :
  store_inv c sessions → sessions !! id = Some s →
  touched lo hi s s' → c ≤ lo → lo ≤ hi →
  store_inv hi (<[id := s']> sessions).
Proof.
  intros Hinv Hs (H1 & H2 & H3) Hc Hlh.
  destruct (Hinv id s Hs) as (I1 & I2 & I3).
  apply store_inv_insert.
  - apply (store_inv_advance c); [done | lia].
  - congruence.
  - rewrite H2. destruct H3 as [-> | ?]; lia.
  - destruct H3 as [-> | ?]; lia.
Qed.

Lemma serve_preserves_inv c r sessions :
  store_inv c sessions →
  monotone_from c (readings r) = true →
  store_inv (latest c (readings r)) (serve r sessions).
Proof.
  intros Hinv Hmono.
  destruct r as [uuid t1 t2 | now id | t1 t2 id ui ws | now id | t1 t2 id part | now];
    unfold latest; simpl in *;
    repeat (apply andb_true_iff in Hmono as [Hmono ?]);
    repeat match goal with H : (_ <=? _) = true |- _ => apply Z.leb_le in H end.
  - apply store_inv_insert; simpl; [|done|lia|lia].
    apply (store_inv_advance c); [done | lia].
  - unfold get_session. destruct (validateSessionId id); simpl;
      [|by apply (store_inv_advance c)].
    destruct (sessions !! id) as [s|] eqn:Hs; simpl;
      [|by apply (store_inv_advance c)].
    apply (store_inv_touch c now now _ _ s); try done; try lia.
    repeat split; simpl; try done. right; lia.
  - unfold put_state. destruct (validateSessionId id); simpl;
      [|apply (store_inv_advance c); [done|lia]].
    destruct (sessions !! id) as [s|] eqn:Hs; simpl;
      [|apply (store_inv_advance c); [done|lia]].
    destruct (is_undefined ui), (validateUiState ui),
      (is_undefined ws), (validateWorkspaceData ws); simpl;
      first [ apply (store_inv_advance c); [done|lia]
            | apply (store_inv_touch c t1 t2 _ _ s); try done; try lia;
              repeat split; simpl; try done; (by left) || (right; lia) ].
  - unfold delete_reset. destruct (validateSessionId id); simpl;
      [|by apply (store_inv_advance c)].
    destruct (sessions !! id) as [s|] eqn:Hs; simpl;
      [|by apply (store_inv_advance c)].
    apply (store_inv_touch c now now _ _ s); try done; try lia.
    repeat split; simpl; try done. right; lia.
  - assert (store_inv t2 sessions) as Hadv
      by (apply (store_inv_advance c); [done|lia]).
    unfold post_upload. destruct (upload_single part) as [e|req_file]; [done|].
    unfold upload_handler. destruct (validateSessionId id); simpl; [|done].
    destruct (sessions !! id) as [s|] eqn:Hs; simpl; [|done].
    destruct req_file as [file|]; [|done].
    destruct (workspaceData s !! "uploads") as [[| | | | |uploads|]|]; try done.
    simpl. apply (store_inv_touch c t1 t2 _ _ s); try done; try lia.
    repeat split; simpl; try done. right; lia.
  - unfold cleanupSessions. apply store_inv_sweep.
    apply (store_inv_advance c); [done | lia].
Qed.

Lemma run_preserves_inv history c sessions :
  store_inv c sessions →
  monotone_from c (List.concat (List.map readings history)) = true →
  store_inv (latest c (List.concat (List.map readings history))) (run history sessions).
Proof.
  revert c sessions. induction history as [|r history IH]; intros c sessions Hinv Hmono;
    simpl in *; [done|].
  rewrite monotone_from_app in Hmono. apply andb_true_iff in Hmono as [H1 H2].
  unfold latest. rewrite foldl_app. apply IH; [|done].
  by apply serve_preserves_inv.
Qed.

Lemma serve_keeps_identity r sessions id s s' :
  ¬ creates r id →
  sessions !! id = Some s → serve r sessions !! id = Some s' →
  sessionId s' = sessionId s ∧ createdAt s' = createdAt s.
Proof.
  intros Hr Hs.
  assert (∀ k x y, sessions !! k = Some y →
            sessionId x = sessionId y → createdAt x = createdAt y →
            (<[k := x]> sessions) !! id = Some s' →
            sessionId s' = sessionId s ∧ createdAt s' = createdAt s) as Hins.
  { intros k x y Hy E1 E2 [[<- <-]|[Hne Hk]]%lookup_insert_Some.
    - assert (y = s) as -> by congruence. done.
    - assert (s' = s) as -> by congruence. done. }
  assert (sessions !! id = Some s' →
          sessionId s' = sessionId s ∧ createdAt s' = createdAt s) as Hsame.
  { intros H. assert (s' = s) as -> by congruence. done. }
  destruct r as [uuid t1 t2 | now k | t1 t2 k ui ws | now k | t1 t2 k part | now];
    simpl in *.
  - rewrite lookup_insert_ne by done. done.
  - unfold get_session. destruct (validateSessionId k); simpl; [|done].
    destruct (sessions !! k) as [y|] eqn:Hy; simpl; [|done].
    by apply (Hins k _ y).
  - unfold put_state. destruct (validateSessionId k); simpl; [|done].
    destruct (sessions !! k) as [y|] eqn:Hy; simpl; [|done].
    destruct (is_undefined ui), (validateUiState ui),
      (is_undefined ws), (validateWorkspaceData ws); simpl;
      first [ done | by apply (Hins k _ y) ].
  - unfold delete_reset. destruct (validateSessionId k); simpl; [|done].
    destruct (sessions !! k) as [y|] eqn:Hy; simpl; [|done].
    by apply (Hins k _ y).
  - unfold post_upload. destruct (upload_single part) as [e|req_file]; [done|].
    unfold upload_handler. destruct (validateSessionId k); simpl; [|done].
    destruct (sessions !! k) as [y|] eqn:Hy; simpl; [|done].
    destruct req_file as [file|]; [|done].
    destruct (workspaceData y !! "uploads") as [[| | | | |uploads|]|]; try done.
    by apply (Hins k _ y).
  - unfold cleanupSessions. intros [H _]%sweepExpired_lookup. by apply Hsame.
Qed.

Lemma serve_preserves_keys r sessions :
  (∀ id s, sessions !! id = Some s → sessionId s = id) →
  ∀ id s, serve r sessions !! id = Some s → sessionId s = id.
Proof.
  intros Hkeys.
  assert (∀ k x y, sessions !! k = Some y → sessionId x = sessionId y →
            ∀ id s, (<[k := x]> sessions) !! id = Some s → sessionId s = id) as Hins.
  { intros k x y Hy E id s [[<- <-]|[_ H]]%lookup_insert_Some.
    - rewrite E. by apply Hkeys.
    - by apply Hkeys. }
  destruct r as [uuid t1 t2 | now k | t1 t2 k ui ws | now k | t1 t2 k part | now];
    simpl.
  - intros id s [[<- <-]|[_ H]]%lookup_insert_Some; [done | by apply Hkeys].
  - unfold get_session. destruct (validateSessionId k); simpl; [|done].
    destruct (sessions !! k) as [y|] eqn:Hy; simpl; [|done].
    by apply (Hins k _ y).
  - unfold put_state. destruct (validateSessionId k); simpl; [|done].
    destruct (sessions !! k) as [y|] eqn:Hy; simpl; [|done].
    destruct (is_undefined ui), (validateUiState ui),
      (is_undefined ws), (validateWorkspaceData ws); simpl;
      first [ done | by apply (Hins k _ y) ].
  - unfold delete_reset. destruct (validateSessionId k); simpl; [|done].
    destruct (sessions !! k) as [y|] eqn:Hy; simpl; [|done].
    by apply (Hins k _ y).
  - unfold post_upload. destruct (upload_single part) as [e|req_file]; [done|].
    unfold upload_handler. destruct (validateSessionId k); simpl; [|done].
    destruct (sessions !! k) as [y|] eqn:Hy; simpl; [|done].
    destruct req_file as [file|]; [|done].
    destruct (workspaceData y !! "uploads") as [[| | | | |uploads|]|]; try done.
    by apply (Hins k _ y).
  - unfold cleanupSessions. intros id s [H _]%sweepExpired_lookup. by apply Hkeys.
Qed.

Lemma run_preserves_keys history sessions :
  (∀ id s, sessions !! id = Some s → sessionId s = id) →
  ∀ id s, run history sessions !! id = Some s → sessionId s = id.
Proof.
  revert sessions. induction history as [|r history IH]; intros sessions Hkeys;
    [done|].
  simpl. apply IH. by apply serve_preserves_keys.
Qed.

(** C9, as stated, fails when the clock is set back between two requests: a
    record created at 1000 and fetched when the clock reads 500 has
    [lastActivity] below [createdAt]. *)
Lemma clock_set_back_breaks_order :
  well_timed [ReqInit sample_id 1000 1000; ReqGet 500 sample_id] = false ∧
  ∃ s, run [ReqInit sample_id 1000 1000; ReqGet 500 sample_id] ∅ !! sample_id
       = Some s ∧
       createdAt s = 1000 ∧ lastActivity s = 500 ∧
       ¬ (createdAt s ≤ lastActivity s).
Proof.
  split; [reflexivity|].
  exists (updateLastActivity 500 fresh).
  split; [vm_compute; reflexivity|]. simpl. repeat split. lia.
Qed.

(** C9, amended.  After any history of requests and sweeps served from the
    empty store: if the clock readings never decrease, every stored record
    has [lastActivity >= createdAt]; whatever the clock does, every record
    sits under its own [sessionId], so that no two entries of the store
    share a [sessionId]; no event changes the [sessionId] found under an
    id; and no event other than the construction of a record under an id
    (a creation whose generated id is already in use) changes the
    [createdAt] found under that id. *)
Theorem store_invariants history :
  (well_timed history = true →
   ∀ id s, run history ∅ !! id = Some s → createdAt s ≤ lastActivity s) ∧
  (∀ id s, run history ∅ !! id = Some s → sessionId s = id) ∧
  (∀ id1 id2 s1 s2,
     run history ∅ !! id1 = Some s1 → run history ∅ !! id2 = Some s2 →
     sessionId s1 = sessionId s2 → id1 = id2) ∧
  (∀ r id s s',
     run history ∅ !! id = Some s → serve r (run history ∅) !! id = Some s' →
     sessionId s' = sessionId s ∧
     (¬ creates r id → createdAt s' = createdAt s)).
Proof.
  assert (∀ id s, run history ∅ !! id = Some s → sessionId s = id) as Hkeys.
  { apply run_preserves_keys. intros id s Hs. by rewrite lookup_empty in Hs. }
  split; [|split; [done|split]].
  - intros Hmono%monotone_from_head.
    assert (store_inv (latest (List.hd 0 (List.concat (List.map readings history)))
                              (List.concat (List.map readings history)))
                      (run history ∅)) as Hinv.
    { apply run_preserves_inv; [|done].
      intros id s Hs. by rewrite lookup_empty in Hs. }
    intros id s Hs. destruct (Hinv id s Hs) as (?&?&?). done.
  - intros id1 id2 s1 s2 H1 H2 E.
    rewrite <- (Hkeys id1 s1 H1), <- (Hkeys id2 s2 H2). done.
  - intros r id s s' Hs Hs'. split.
    + rewrite (Hkeys id s Hs).
      by apply (serve_preserves_keys r (run history ∅) Hkeys id s').
    + intros Hr. by destruct (serve_keeps_identity r _ id s s' Hr Hs Hs').
Qed.

Lemma store_invariants_witness :
  well_timed [ReqInit sample_id 1000 1000;
              ReqPutState 2000 2001 sample_id table_tab VUndefined;
              ReqCleanup 2002; ReqReset 2002 sample_id] = true ∧
  ∃ s, run [ReqInit sample_id 1000 1000;
            ReqPutState 2000 2001 sample_id table_tab VUndefined;
            ReqCleanup 2002; ReqReset 2002 sample_id] ∅ !! sample_id = Some s ∧
       createdAt s = 1000 ∧ lastActivity s = 2002 ∧
       createdAt s ≤ lastActivity s.
Proof.
  split; [reflexivity|].
  exists (resetSession 2002 fresh).
  assert (run [ReqInit sample_id 1000 1000;
               ReqPutState 2000 2001 sample_id table_tab VUndefined;
               ReqCleanup 2002; ReqReset 2002 sample_id] ∅ !! sample_id
          = Some (resetSession 2002 fresh)) as Hs by (vm_compute; reflexivity).
  split; [exact Hs|]. split; [reflexivity|]. split; [reflexivity|].
  exact (proj1 (store_invariants
                  [ReqInit sample_id 1000 1000;
                   ReqPutState 2000 2001 sample_id table_tab VUndefined;
                   ReqCleanup 2002; ReqReset 2002 sample_id]) eq_refl
               sample_id (resetSession 2002 fresh) Hs).
Defined.

End RemoteStore.

(** ** The sync scheduler *)

Section SyncScheduler.

Import Client.
Local Open Scope Z_scope.

Implicit Types (b : Browser) (id : string).

(** *** Periodic validation *)

Lemma filter_again {A} (P : A → Prop) `{∀ x, Decision (P x)} (l : list A) :
  filter P (filter P l) = filter P l.
Proof.
  induction l as [|x l IH]; [done|].
  rewrite filter_cons. case_decide; [|done].
  rewrite filter_cons. case_decide; [|done]. by rewrite IH.
Qed.

(** C3, as stated, fails for a network failure: the callback only logs it;
    the interval keeps running, the id is kept and no bootstrap request is
    sent. *)
Lemma poll_network_failure_keeps_session :
  validation_tick Rejected Rejected (Resolved new_session) active_browser
  = fetch (GetSession Samples.sample_id) active_browser ∧
  sessionId (manager (validation_tick Rejected Rejected (Resolved new_session)
                        active_browser)) = Some Samples.sample_id ∧
  storedId (validation_tick Rejected Rejected (Resolved new_session) active_browser)
  = Some Samples.sample_id ∧
  intervals (validation_tick Rejected Rejected (Resolved new_session) active_browser)
  = [1%nat] ∧
  fetched (validation_tick Rejected Rejected (Resolved new_session) active_browser)
  = [GetSession Samples.sample_id].
Proof. repeat split; reflexivity. Qed.

(** C3, amended.  When the poll is answered with an unsuccessful reply
    (404, or any body whose [success] is false), the manager clears its own
    interval, forgets the id in memory and in [sessionStorage], and runs
    [init] once: exactly one POST /api/session/init follows the poll.  If
    that creation succeeds the new id is adopted and a new interval is
    started; if not, the manager is left without session and without
    interval.  When the poll fails at the network level the callback changes
    nothing. *)
Theorem failed_validation_rebootstraps_once b id h data load create :
  truthy_id (sessionId (manager b)) = Some id →
  validationInterval (manager b) = Some h →
  success data = false →
  fetched (validation_tick (Resolved data) load create b)
  = fetched b ++ [GetSession id; PostInit] ∧
  match created create with
  | Some d =>
      sessionId (manager (validation_tick (Resolved data) load create b))
      = Some (replySessionId d) ∧
      storedId (validation_tick (Resolved data) load create b)
      = Some (replySessionId d) ∧
      isInitialized (manager (validation_tick (Resolved data) load create b)) = true ∧
      validationInterval (manager (validation_tick (Resolved data) load create b))
      = Some (nextHandle b) ∧
      intervals (validation_tick (Resolved data) load create b)
      = filter (λ h', h' ≠ h) (intervals b) ++ [nextHandle b]
  | None =>
      sessionId (manager (validation_tick (Resolved data) load create b)) = None ∧
      storedId (validation_tick (Resolved data) load create b) = None ∧
      isInitialized (manager (validation_tick (Resolved data) load create b)) = false ∧
      intervals (validation_tick (Resolved data) load create b)
      = filter (λ h', h' ≠ h) (intervals b)
  end ∧
  validation_tick Rejected load create b = fetch (GetSession id) b.
Proof.
  intros Hid Hh Hfail. unfold validation_tick. rewrite Hid, Hfail.
  split; [|split; [|done]].
  - unfold init, invalidate. simpl. rewrite Hh. simpl.
    unfold createNewSession. destruct create as [|d]; simpl.
    + by rewrite <- app_assoc.
    + destruct (success d); simpl.
      * unfold adopt. destruct (replyUiState d); simpl; rewrite Hh; simpl;
          by rewrite <- app_assoc.
      * by rewrite <- app_assoc.
  - unfold init, invalidate. simpl. rewrite Hh. simpl.
    unfold createNewSession, created. destruct create as [|d]; simpl; [done|].
    destruct (success d); simpl; [|done].
    unfold adopt. destruct (replyUiState d); simpl; rewrite Hh; simpl;
      by rewrite filter_again.
Qed.

Lemma failed_validation_rebootstraps_once_witness :
  fetched (validation_tick (Resolved not_found) Rejected (Resolved new_session)
             active_browser)
  = [GetSession Samples.sample_id; PostInit] ∧
  sessionId (manager (validation_tick (Resolved not_found) Rejected
                        (Resolved new_session) active_browser))
  = Some (replySessionId new_session) ∧
  intervals (validation_tick (Resolved not_found) Rejected (Resolved new_session)
               active_browser) = [2%nat].
Proof.
  destruct (failed_validation_rebootstraps_once active_browser Samples.sample_id 1%nat
              not_found Rejected (Resolved new_session))
    as (H1 & H2 & _); try reflexivity.
  simpl in H2. destruct H2 as (H2 & _ & _ & _ & H3).
  split; [exact H1|]. split; [exact H2 | exact H3].
Defined.

(** *** Debounced push *)

Lemma getState_after_updateState now newState b :
  getState (updateState now newState b) = spread (getState b) newState.
Proof.
  unfold getState, updateState, debouncedSync. simpl.
  destruct (isInitialized (manager b)); [|done].
  by destruct (syncTimeout (manager b)).
Qed.

Lemma write_at_reschedules b id t p :
  isInitialized (manager b) = true →
  truthy_id (sessionId (manager b)) = Some id →
  (timeouts b = [] ∨
   ∃ h d, timeouts b = [(h, d)] ∧ syncTimeout (manager b) = Some h ∧ t < d) →
  pending id t (write_at (t, p) b) ∧
  fetched (write_at (t, p) b) = fetched b ∧
  state (manager (write_at (t, p) b)) = spread (state (manager b)) p.
Proof.
  intros Hinit Hid Htimers.
  destruct b as [[sid sto vi ini st] stored tos ints nh fs]. simpl in *. subst ini.
  unfold write_at, elapse, updateState, debouncedSync, pending. simpl.
  destruct Htimers as [-> | (h & d & -> & -> & Hlt)]; simpl.
  - destruct sto as [h|]; simpl; (split; [|done]); (split; [done|]);
      (split; [done|]); by eexists.
  - rewrite !filter_cons, !filter_nil. simpl.
    destruct (decide (d ≤ t)) as [?|_]; [lia|].
    destruct (decide (t < d)) as [_|?]; [|lia]. simpl.
    rewrite filter_cons, filter_nil. simpl.
    destruct (decide (h ≠ h)) as [?|_]; [done|]. simpl.
    (split; [|done]); (split; [done|]); (split; [done|]); by eexists.
Qed.

Lemma run_writes_burst ws b id t :
  pending id t b → burst_from t ws = true →
  pending id (last_time t ws) (run_writes ws b) ∧
  fetched (run_writes ws b) = fetched b ∧
  state (manager (run_writes ws b)) = merged (state (manager b)) ws.
Proof.
  revert b t. induction ws as [|[t' p] ws IH]; intros b t Hpend Hburst; [done|].
  simpl in Hburst.
  apply andb_true_iff in Hburst as [[Hle Hlt]%andb_true_iff Hrest].
  apply Z.leb_le in Hle. apply Z.ltb_lt in Hlt.
  destruct Hpend as (Hinit & Hid & h & Htos & Hsto).
  destruct (write_at_reschedules b id t' p Hinit Hid) as (Hpend' & Hf & Hst).
  { right. exists h, (t + wait). done. }
  destruct (IH _ _ Hpend' Hrest) as (H1 & H2 & H3).
  unfold run_writes, last_time, merged in *. simpl.
  split; [done|]. split; [congruence|]. by rewrite H3, Hst.
Qed.

Lemma elapse_pending b id t T :
  pending id t b →
  (T < t + wait → elapse T b = b) ∧
  (t + wait ≤ T →
     fetched (elapse T b) = fetched b ++ [PutState id (state (manager b))] ∧
     timeouts (elapse T b) = [] ∧ manager (elapse T b) = manager b).
Proof.
  intros (Hinit & Hid & h & Htos & Hsto).
  destruct b as [m stored tos ints nh fs]. simpl in *. subst tos.
  unfold elapse. simpl. rewrite !filter_cons, !filter_nil. simpl. split; intros HT.
  - destruct (decide (t + wait ≤ T)) as [?|_]; [lia|].
    destruct (decide (T < t + wait)) as [_|?]; [|lia]. done.
  - destruct (decide (t + wait ≤ T)) as [_|?]; [|lia].
    destruct (decide (T < t + wait)) as [?|_]; [lia|]. simpl.
    unfold syncToServer. simpl. rewrite Hid. done.
Qed.

(** X18.  While the manager is not initialised, writes are merged into
    the local state but never pushed, however much time passes. *)
Lemma writes_before_init_are_not_pushed ws b T :
  isInitialized (manager b) = false → timeouts b = [] →
  fetched (elapse T (run_writes ws b)) = fetched b ∧
  state (manager (run_writes ws b)) = merged (state (manager b)) ws.
Proof.
  revert b. induction ws as [|[t p] ws IH]; intros b Hinit Hquiet.
  - unfold elapse. simpl. by rewrite Hquiet.
  - assert (write_at (t, p) b
            = with_manager (λ m, set_state (spread (state m) p) m) b) as E.
    { destruct b as [m stored tos ints nh fs]. simpl in *. subst tos.
      unfold write_at, elapse, updateState. simpl. by rewrite Hinit. }
    assert (run_writes ((t, p) :: ws) b = run_writes ws (write_at (t, p) b)) as ->
      by done.
    destruct (IH (write_at (t, p) b)) as [H1 H2]; [by rewrite E..|].
    rewrite H1, H2, E. done.
Qed.

(** C2, as stated, fails on a manager that is not initialised (before the
    bootstrap has succeeded, or after a failed one): the writes of a burst
    are merged into the local state, but no timer is set and nothing is
    ever pushed. *)
Lemma burst_before_init_is_never_pushed :
  burst three_writes = true ∧
  isInitialized (manager (page_load None)) = false ∧
  timeouts (run_writes three_writes (page_load None)) = [] ∧
  fetched (elapse 100000 (run_writes three_writes (page_load None))) = [] ∧
  getState (run_writes three_writes (page_load None)) !! "activeTab"
  = Some (VStr "pq-query").
Proof. repeat split; reflexivity. Qed.

(** C2, amended.  From a manager that is initialised, holds a session id and
    has no push pending, a burst of writes, each less than [wait] = 500
    after the one before, sends nothing while it lasts and leaves a single
    timer, due 500 after the last write;
    any further write inside the window replaces that timer by one due 500
    after itself; and once the timer is due exactly one PUT has been sent,
    carrying the state merged from all the writes of the burst. *)
Theorem burst_pushes_last_state_once b id ws T :
  isInitialized (manager b) = true →
  truthy_id (sessionId (manager b)) = Some id →
  timeouts b = [] →
  burst ws = true →
  getState (run_writes ws b) = merged (state (manager b)) ws ∧
  fetched (run_writes ws b) = fetched b ∧
  (∃ h, timeouts (run_writes ws b) = [(h, last_time 0 ws + wait)] ∧
        syncTimeout (manager (run_writes ws b)) = Some h) ∧
  (∀ w, last_time 0 ws ≤ w.1 < last_time 0 ws + wait →
        ∃ h', timeouts (write_at w (run_writes ws b)) = [(h', w.1 + wait)] ∧
              fetched (write_at w (run_writes ws b)) = fetched b) ∧
  (T < last_time 0 ws + wait →
     fetched (elapse T (run_writes ws b)) = fetched b) ∧
  (last_time 0 ws + wait ≤ T →
     fetched (elapse T (run_writes ws b))
     = fetched b ++ [PutState id (merged (state (manager b)) ws)] ∧
     timeouts (elapse T (run_writes ws b)) = []).
Proof.
  intros Hinit Hid Hquiet Hburst.
  destruct ws as [|[t p] ws]; [done|]. simpl in Hburst.
  destruct (write_at_reschedules b id t p Hinit Hid (or_introl Hquiet))
    as (Hpend & Hf & Hst).
  destruct (run_writes_burst ws _ id t Hpend Hburst) as (Hpend' & Hf' & Hst').
  assert (run_writes ((t, p) :: ws) b = run_writes ws (write_at (t, p) b)) as ->
    by done.
  assert (last_time 0 ((t, p) :: ws) = last_time t ws) as -> by done.
  assert (merged (state (manager b)) ((t, p) :: ws)
          = merged (state (manager (write_at (t, p) b))) ws) as ->
    by (unfold merged; simpl; by rewrite Hst).
  destruct (elapse_pending _ id _ T Hpend') as [Hearly Hlate].
  split; [done|]. split; [congruence|].
  split; [by destruct Hpend' as (_ & _ & h & ? & ?); exists h|].
  split; [|split].
  - intros [t' p'] [Hle Hlt]. simpl in *.
    destruct Hpend' as (Hinit' & Hid' & h & Htos & Hsto).
    destruct (write_at_reschedules (run_writes ws (write_at (t, p) b)) id t' p'
                Hinit' Hid') as ((_ & _ & h' & Htos' & _) & Hf'' & _).
    { right. exists h, (last_time t ws + wait). done. }
    exists h'. split; [done | congruence].
  - intros HT. rewrite (Hearly HT). congruence.
  - intros HT. destruct (Hlate HT) as (H1 & H2 & _).
    rewrite H1, Hst', Hf', Hf. done.
Qed.

Lemma burst_pushes_last_state_once_witness :
  fetched (elapse 1198 (run_writes three_writes active_browser)) = [] ∧
  fetched (elapse 1199 (run_writes three_writes active_browser))
  = [PutState Samples.sample_id
       (merged (state (manager active_browser)) three_writes)] ∧
  merged (state (manager active_browser)) three_writes !! "activeTab"
  = Some (VStr "pq-query").
Proof.
  split; [|split].
  - destruct (burst_pushes_last_state_once active_browser Samples.sample_id
                three_writes 1198 eq_refl eq_refl eq_refl eq_refl)
      as (_ & _ & _ & _ & H & _).
    apply H. reflexivity.
  - destruct (burst_pushes_last_state_once active_browser Samples.sample_id
                three_writes 1199 eq_refl eq_refl eq_refl eq_refl)
      as (_ & _ & _ & _ & _ & H).
    apply H. discriminate.
  - reflexivity.
Defined.

End SyncScheduler.

(** ** The local state store *)

Section LocalStateStore.

Import LocalStore.

Variable stringify : gmap string JsVal → string.

(** C7.  A write replaces the top-level keys present in the partial by the
    partial's values and leaves the other keys as they were; the hook's
    state is that merged state whether or not the durable write succeeds.
    When [setItem] succeeds the stored item is the serialised merged state;
    when it throws, storage is left as it was and the hook's [error]
    reports the failure. *)
Theorem local_write_merges updates throws hook storage :
  state (updateState stringify updates throws hook storage).1
  = updates ∪ state hook ∧
  (∀ k v, updates !! k = Some v →
     state (updateState stringify updates throws hook storage).1 !! k = Some v) ∧
  (∀ k, updates !! k = None →
     state (updateState stringify updates throws hook storage).1 !! k
     = state hook !! k) ∧
  match throws with
  | None =>
      (updateState stringify updates throws hook storage).2
      = <[SESSION_STORAGE_KEY :=
            stringify (state (updateState stringify updates throws hook storage).1)]>
          storage ∧
      error (updateState stringify updates throws hook storage).1 = error hook
  | Some e =>
      (updateState stringify updates throws hook storage).2 = storage ∧
      error (updateState stringify updates throws hook storage).1
      = Some ("Failed to save: " +:+ describe e)
  end.
Proof.
  assert (state (updateState stringify updates throws hook storage).1
          = updates ∪ state hook) as E
    by (unfold updateState; by destruct throws).
  split; [done|]. rewrite E. split; [|split].
  - intros k v Hk. by apply lookup_union_Some_l.
  - intros k Hk. by apply lookup_union_r.
  - unfold updateState. destruct throws; simpl; done.
Qed.

End LocalStateStore.

(** ** Further properties of the remote session store *)

Section RemoteStoreShape.

Import Server Samples.
Local Open Scope Z_scope.

Implicit Types (sessions : gmap string UserSession) (s : UserSession).
Implicit Types (id : string) (now : Z).

(** *** Identifiers *)

Lemma matches_length pat str :
  matches pat str = true → String.length str = List.length pat.
Proof.
  revert str. induction pat as [|cl pat IH]; intros [|c str]; simpl; try done.
  intros [_ H]%andb_true_iff. by rewrite (IH str H).
Qed.

Lemma matches_get pat str i cl :
  matches pat str = true → pat !! i = Some cl →
  ∃ c, String.get i str = Some c ∧ class_matches cl c = true.
Proof.
  revert str i. induction pat as [|cl' pat IH]; intros [|c str] i; simpl; try done.
  intros [Hc H]%andb_true_iff. destruct i as [|i]; simpl.
  - intros [= <-]. by exists c.
  - intros Hi. by apply IH.
Qed.

(** X1.  An accepted identifier has the layout of a version-4 UUID: 36
    characters, hyphens at offsets 8, 13, 18 and 23, and the digit 4 at
    offset 14. *)
Theorem accepted_id_layout id :
  validateSessionId id = true →
  String.length id = 36%nat ∧
  String.get 8 id = Some "-"%char ∧ String.get 13 id = Some "-"%char ∧
  String.get 18 id = Some "-"%char ∧ String.get 23 id = Some "-"%char ∧
  String.get 14 id = Some "4"%char.
Proof.
  intros H. unfold validateSessionId in H.
  split; [by rewrite (matches_length _ _ H)|].
  assert (∀ i cl ch, uuidRegex !! i = Some cl →
            (∀ c, class_matches cl c = true → c = ch) →
            String.get i id = Some ch) as Hat.
  { intros i cl ch Hi Hcl. destruct (matches_get _ _ i cl H Hi) as (c & Hc & Hm).
    by rewrite Hc, (Hcl c Hm). }
  repeat split.
  - apply (Hat 8%nat Dash); [done|]. intros c Hc. by apply Ascii.eqb_eq in Hc.
  - apply (Hat 13%nat Dash); [done|]. intros c Hc. by apply Ascii.eqb_eq in Hc.
  - apply (Hat 18%nat Dash); [done|]. intros c Hc. by apply Ascii.eqb_eq in Hc.
  - apply (Hat 23%nat Dash); [done|]. intros c Hc. by apply Ascii.eqb_eq in Hc.
  - apply (Hat 14%nat Four); [done|]. intros c Hc. by apply Ascii.eqb_eq in Hc.
Qed.

Lemma accepted_id_layout_witness :
  String.length sample_id = 36%nat ∧ String.get 14 sample_id = Some "4"%char.
Proof.
  destruct (accepted_id_layout sample_id eq_refl) as (H1 & _ & _ & _ & _ & H2).
  split; [exact H1 | exact H2].
Defined.

Lemma class_matches_upcase cl c :
  class_matches cl (upcase c) = class_matches cl c.
Proof.
  destruct cl; destruct c as [[] [] [] [] [] [] [] []]; reflexivity.
Qed.

(** X2.  Validation of an identifier does not depend on the case of its
    letters. *)
Theorem validateSessionId_ignores_case id :
  validateSessionId (upcase_string id) = validateSessionId id.
Proof.
  unfold validateSessionId. generalize uuidRegex as pat. intros pat. revert pat.
  induction id as [|c id IH]; intros [|cl pat]; simpl; try done.
  by rewrite class_matches_upcase, IH.
Qed.

(** *** The shape of stored records *)

Lemma validateWorkspaceData_props ws k v :
  validateWorkspaceData ws = true → own_props ws !! k = Some v →
  k ∈ allowedKeys ∧ ∃ l, v = VArr l.
Proof.
  unfold validateWorkspaceData.
  destruct (negb (truthy ws) || negb (typeof_object ws)); [done|].
  intros [Hkeys Harr]%andb_true_iff Hk.
  assert (In k (keys ws)) as Hin.
  { apply list_elem_of_In. unfold keys. apply list_elem_of_fmap.
    exists (k, v). split; [done|]. by apply elem_of_map_to_list. }
  split.
  - pose proof (proj1 (forallb_forall _ _) Hkeys k Hin) as H.
    by apply bool_decide_eq_true in H.
  - pose proof (proj1 (forallb_forall _ _) Harr k Hin) as H.
    unfold get_prop in H. rewrite Hk in H. simpl in H.
    destruct v; try done. by eexists.
Qed.

Lemma validateUiState_props ui :
  validateUiState ui = true →
  (truthy (get_prop ui "activeTab") = true →
   includes tabs (get_prop ui "activeTab") = true) ∧
  is_undefined (get_prop ui "excelToggle")
  || typeof_boolean (get_prop ui "excelToggle") = true.
Proof.
  unfold validateUiState.
  destruct (negb (truthy ui) || negb (typeof_object ui)); [done|].
  destruct (truthy (get_prop ui "activeTab")) eqn:Ht; simpl.
  - destruct (includes tabs (get_prop ui "activeTab")); simpl; [|done].
    destruct (is_undefined (get_prop ui "excelToggle")); simpl; [done|].
    by destruct (typeof_boolean (get_prop ui "excelToggle")).
  - destruct (is_undefined (get_prop ui "excelToggle")); simpl; [done|].
    by destruct (typeof_boolean (get_prop ui "excelToggle")).
Qed.

Lemma field_spread base patch k :
  field (spread base patch) k
  = match own_props patch !! k with
    | Some _ => get_prop patch k
    | None => field base k
    end.
Proof.
  unfold field, get_prop. destruct (own_props patch !! k) as [v|] eqn:E.
  - by rewrite (spread_lookup_patch _ _ _ _ E).
  - by rewrite (spread_lookup_base _ _ _ E).
Qed.

Lemma new_session_well_shaped uuid t1 t2 :
  well_shaped (new_UserSession uuid t1 t2).
Proof.
  split; [split|split]; simpl.
  - intros k Hk. unfold allowedKeys in Hk.
    repeat (apply elem_of_cons in Hk as [->|Hk]; [by eexists|]).
    by apply elem_of_nil in Hk.
  - intros k v Hk. unfold default_workspaceData in Hk.
    repeat (apply lookup_insert_Some in Hk as [[<- _]|[_ Hk]];
            [unfold allowedKeys; set_solver|]).
    apply lookup_singleton_Some in Hk as [<- _]. unfold allowedKeys. set_solver.
  - done.
  - done.
Qed.

Lemma updateUiState_well_shaped t ui s :
  well_shaped s → validateUiState ui = true → well_shaped (updateUiState t ui s).
Proof.
  intros [Hws [Htab Htoggle]] Hok.
  destruct (validateUiState_props ui Hok) as [Ptab Ptoggle].
  split; [done|]. split; simpl; rewrite field_spread.
  - by destruct (own_props ui !! "activeTab").
  - by destruct (own_props ui !! "excelToggle").
Qed.

Lemma updateWorkspaceData_well_shaped t ws s :
  well_shaped s → validateWorkspaceData ws = true →
  well_shaped (updateWorkspaceData t ws s).
Proof.
  intros [[Harr Hkeys] Hui] Hok. split; [|done]. split; simpl.
  - intros k Hk. destruct (own_props ws !! k) as [v|] eqn:E.
    + destruct (validateWorkspaceData_props ws k v Hok E) as (_ & l & ->).
      exists l. by apply spread_lookup_patch.
    + rewrite (spread_lookup_base _ _ _ E). by apply Harr.
  - intros k v Hk. destruct (own_props ws !! k) as [v'|] eqn:E.
    + by destruct (validateWorkspaceData_props ws k v' Hok E).
    + rewrite (spread_lookup_base _ _ _ E) in Hk. by eapply Hkeys.
Qed.

Lemma resetSession_well_shaped t s : well_shaped (resetSession t s).
Proof. apply (new_session_well_shaped (sessionId s) t t). Qed.

Lemma push_upload_well_shaped t s l :
  well_shaped s →
  well_shaped
    (updateLastActivity t
       {| sessionId := sessionId s; createdAt := createdAt s;
          lastActivity := lastActivity s; uiState := uiState s;
          workspaceData := <["uploads" := VArr l]> (workspaceData s) |}).
Proof.
  intros [[Harr Hkeys] Hui]. split; [|done]. split; simpl.
  - intros k Hk. destruct (decide (k = "uploads")) as [->|Hne].
    + exists l. by rewrite lookup_insert_eq.
    + rewrite lookup_insert_ne by done. by apply Harr.
  - intros k v [[<- _]|[_ Hk]]%lookup_insert_Some.
    + unfold allowedKeys. set_solver.
    + by eapply Hkeys.
Qed.

Lemma serve_preserves_shape r sessions :
  map_Forall (λ _, well_shaped) sessions →
  map_Forall (λ _, well_shaped) (serve r sessions).
Proof.
  intros Hall.
  destruct r as [uuid t1 t2 | now id | t1 t2 id ui ws | now id | t1 t2 id part | now];
    simpl.
  - apply map_Forall_insert_2; [apply new_session_well_shaped | done].
  - unfold get_session. destruct (validateSessionId id); simpl; [|done].
    destruct (sessions !! id) as [s|] eqn:Hs; simpl; [|done].
    apply map_Forall_insert_2; [|done]. apply (Hall id s Hs).
  - unfold put_state. destruct (validateSessionId id); simpl; [|done].
    destruct (sessions !! id) as [s|] eqn:Hs; simpl; [|done].
    pose proof (Hall id s Hs) as Hshape.
    destruct (is_undefined ui); simpl.
    + destruct (is_undefined ws); simpl; [by apply map_Forall_insert_2|].
      destruct (validateWorkspaceData ws) eqn:Hws; simpl;
        apply map_Forall_insert_2; try done.
      by apply updateWorkspaceData_well_shaped.
    + destruct (validateUiState ui) eqn:Hui; simpl; [|done].
      pose proof (updateUiState_well_shaped t1 ui s Hshape Hui) as Hshape1.
      destruct (is_undefined ws); simpl; [by apply map_Forall_insert_2|].
      destruct (validateWorkspaceData ws) eqn:Hws; simpl;
        apply map_Forall_insert_2; try done.
      by apply updateWorkspaceData_well_shaped.
  - unfold delete_reset. destruct (validateSessionId id); simpl; [|done].
    destruct (sessions !! id) as [s|] eqn:Hs; simpl; [|done].
    apply map_Forall_insert_2; [apply resetSession_well_shaped | done].
  - unfold post_upload. destruct (upload_single part) as [e|req_file]; [done|].
    unfold upload_handler. destruct (validateSessionId id); simpl; [|done].
    destruct (sessions !! id) as [s|] eqn:Hs; simpl; [|done].
    destruct req_file as [file|]; [|done].
    destruct (workspaceData s !! "uploads") as [[| | | | |uploads|]|]; try done.
    simpl. apply map_Forall_insert_2; [|done].
    apply push_upload_well_shaped. apply (Hall id s Hs).
  - unfold cleanupSessions. intros id s [Hs _]%sweepExpired_lookup.
    by apply (Hall id s).
Qed.

Lemma run_preserves_shape history sessions :
  map_Forall (λ _, well_shaped) sessions →
  map_Forall (λ _, well_shaped) (run history sessions).
Proof.
  revert sessions. induction history as [|r history IH]; intros sessions H; [done|].
  simpl. apply IH. by apply serve_preserves_shape.
Qed.

Lemma stored_shape_uploads history id s :
  run history ∅ !! id = Some s →
  ∃ uploads, workspaceData s !! "uploads" = Some (VArr uploads).
Proof.
  intros Hs.
  assert (well_shaped s) as [[H1 _] _].
  { apply (run_preserves_shape history ∅ (map_Forall_empty _) id s Hs). }
  apply H1. unfold allowedKeys. set_solver.
Qed.

(** X3.  After any history served from the empty store, every record's
    [workspaceData] holds exactly the four keys [gridData], [tableData],
    [pqQueryData] and [uploads], each with an array; a truthy
    [uiState.activeTab] is one of grid, table, pq-query; and
    [uiState.excelToggle] is a boolean or undefined. *)
Theorem stored_records_are_well_shaped history id s :
  run history ∅ !! id = Some s →
  (∀ k, k ∈ allowedKeys → ∃ l, workspaceData s !! k = Some (VArr l)) ∧
  (∀ k v, workspaceData s !! k = Some v → k ∈ allowedKeys) ∧
  (truthy (field (uiState s) "activeTab") = true →
   includes tabs (field (uiState s) "activeTab") = true) ∧
  is_undefined (field (uiState s) "excelToggle")
  || typeof_boolean (field (uiState s) "excelToggle") = true.
Proof.
  intros Hs.
  assert (well_shaped s) as [[H1 H2] [H3 H4]].
  { apply (run_preserves_shape history ∅ (map_Forall_empty _) id s Hs). }
  done.
Qed.

Lemma stored_records_are_well_shaped_witness :
  ∃ l, workspaceData (updateUiState 2000 table_tab fresh) !! "uploads" = Some (VArr l).
Proof.
  destruct (stored_records_are_well_shaped
              [ReqInit sample_id 1000 1000;
               ReqPutState 2000 2001 sample_id table_tab VUndefined]
              sample_id (updateUiState 2000 table_tab fresh)) as (H & _).
  - vm_compute. reflexivity.
  - apply H. unfold allowedKeys. set_solver.
Defined.

(** X4.  On a store reached by serving requests, an upload of a file of an
    allowed type smaller than the size cap, to a well-formed id of an
    existing session, always answers 200; it appends one entry to [uploads],
    keeps the earlier entries and every other field, and sets
    [lastActivity]. *)
Theorem upload_appends history t_uploaded t_touch id s file :
  run history ∅ !! id = Some s →
  validateSessionId id = true →
  mimetype file ∈ allowedTypes →
  size file < fileSize →
  ∃ uploads s',
    workspaceData s !! "uploads" = Some (VArr uploads) ∧
    post_upload t_uploaded t_touch id (Some file) (run history ∅)
    = ({| status := 200; success := true;
          message := Some "File uploaded successfully";
          payload := UploadInfo (originalname file) (mimetype file)
                                (size file) t_uploaded |},
       <[id := s']> (run history ∅)) ∧
    workspaceData s' !! "uploads"
    = Some (VArr (uploads ++ [uploadInfo file t_uploaded])) ∧
    (∀ k, k ≠ "uploads" → workspaceData s' !! k = workspaceData s !! k) ∧
    uiState s' = uiState s ∧
    sessionId s' = sessionId s ∧ createdAt s' = createdAt s ∧
    lastActivity s' = t_touch.
Proof.
  intros Hs Hid Htype Hsize.
  destruct (stored_shape_uploads history id s Hs) as [uploads Hup].
  exists uploads. eexists. split; [done|].
  unfold post_upload, upload_single, fileFilter.
  rewrite bool_decide_eq_true_2 by done.
  destruct (Z.geb_spec (size file) fileSize) as [?|_]; [lia|].
  unfold upload_handler. rewrite Hid, Hs, Hup. simpl.
  split; [reflexivity|]. simpl. rewrite lookup_insert_eq.
  split; [done|]. split; [|done].
  intros k Hk. by rewrite lookup_insert_ne.
Qed.

Lemma upload_appends_witness :
  ∃ s',
    workspaceData after_first_upload !! "uploads"
    = Some (VArr [uploadInfo small_csv 1500]) ∧
    (post_upload 2000 2001 sample_id (Some second_xlsx) (run uploaded_once ∅)).2
    = <[sample_id := s']> (run uploaded_once ∅) ∧
    workspaceData s' !! "uploads"
    = Some (VArr [uploadInfo small_csv 1500; uploadInfo second_xlsx 2000]).
Proof.
  assert (run uploaded_once ∅ !! sample_id = Some after_first_upload) as Hs
    by (vm_compute; reflexivity).
  assert (mimetype second_xlsx ∈ allowedTypes) as Htype
    by (by apply (bool_decide_eq_true_1 (mimetype second_xlsx ∈ allowedTypes))).
  assert (size second_xlsx < fileSize) as Hsize by reflexivity.
  destruct (upload_appends uploaded_once 2000 2001 sample_id after_first_upload
              second_xlsx Hs eq_refl Htype Hsize)
    as (uploads & s' & H1 & H2 & H3 & _).
  assert (uploads = [uploadInfo small_csv 1500]) as ->.
  { assert (workspaceData after_first_upload !! "uploads"
            = Some (VArr [uploadInfo small_csv 1500])) as H by reflexivity.
    rewrite H in H1. by injection H1 as <-. }
  exists s'. split; [exact H1|]. split; [by rewrite H2 | exact H3].
Defined.

(** *** Isolation and failure *)

(** X5.  A request addressed to one id leaves the record of every other id as it
    was, and creating a session leaves every id but the new one as it
    was. *)
Theorem requests_touch_only_their_session r sessions id' :
  match r with
  | ReqInit uuid _ _ => uuid ≠ id'
  | ReqCleanup _ => False
  | _ => addressee r ≠ Some id'
  end →
  serve r sessions !! id' = sessions !! id'.
Proof.
  destruct r as [uuid t1 t2 | now id | t1 t2 id ui ws | now id | t1 t2 id part | now];
    simpl; intros Hne; try done;
    try (assert (id ≠ id') as Hid by congruence).
  - by rewrite lookup_insert_ne.
  - unfold get_session. destruct (validateSessionId id); simpl; [|done].
    destruct (sessions !! id); simpl; [|done]. by rewrite lookup_insert_ne.
  - unfold put_state. destruct (validateSessionId id); simpl; [|done].
    destruct (sessions !! id); simpl; [|done].
    destruct (is_undefined ui), (validateUiState ui), (is_undefined ws),
      (validateWorkspaceData ws); simpl; try done; by rewrite lookup_insert_ne.
  - unfold delete_reset. destruct (validateSessionId id); simpl; [|done].
    destruct (sessions !! id); simpl; [|done]. by rewrite lookup_insert_ne.
  - unfold post_upload. destruct (upload_single part) as [e|req_file]; [done|].
    unfold upload_handler. destruct (validateSessionId id); simpl; [|done].
    destruct (sessions !! id) as [s|]; simpl; [|done].
    destruct req_file as [file|]; [|done].
    destruct (workspaceData s !! "uploads") as [[| | | | |uploads|]|]; try done.
    simpl. by rewrite lookup_insert_ne.
Qed.

Lemma requests_touch_only_their_session_witness :
  status (put_state 2000 2001 other_id table_tab VUndefined two_sessions).1 = 200 ∧
  uiState <$> serve (ReqPutState 2000 2001 other_id table_tab VUndefined) two_sessions
              !! other_id
  = Some (spread default_uiState table_tab) ∧
  two_sessions !! sample_id = Some fresh ∧
  serve (ReqPutState 2000 2001 other_id table_tab VUndefined) two_sessions !! sample_id
  = Some fresh.
Proof.
  split; [vm_compute; reflexivity|]. split; [vm_compute; reflexivity|].
  assert (two_sessions !! sample_id = Some fresh) as Hs by (vm_compute; reflexivity).
  split; [exact Hs|]. rewrite <- Hs.
  apply (requests_touch_only_their_session
           (ReqPutState 2000 2001 other_id table_tab VUndefined) two_sessions
           sample_id).
  simpl. discriminate.
Defined.

(** X6.  A request that is answered with a failure leaves the whole store as it
    was, with one exception: a state update refused with "Invalid workspace
    data". *)
Theorem failures_do_not_mutate r sessions resp :
  respond r sessions = Some resp →
  success resp = false →
  serve r sessions = sessions ∨
  ((∃ t_ui t_ws id ui ws, r = ReqPutState t_ui t_ws id ui ws) ∧
   resp = failure 400 "Invalid workspace data").
Proof.
  destruct r as [uuid t1 t2 | now id | t1 t2 id ui ws | now id | t1 t2 id part | now];
    simpl; intros [= <-]; try done.
  - unfold get_session. destruct (validateSessionId id); simpl; [|by left].
    destruct (sessions !! id); simpl; [done | by left].
  - unfold put_state. destruct (validateSessionId id); simpl; [|by left].
    destruct (sessions !! id); simpl; [|by left].
    destruct (negb (is_undefined ui) && negb (validateUiState ui)); simpl; [by left|].
    destruct (negb (is_undefined ws) && negb (validateWorkspaceData ws)); simpl;
      [|done].
    intros _. right. split; [by exists t1, t2, id, ui, ws | done].
  - unfold delete_reset. destruct (validateSessionId id); simpl; [|by left].
    destruct (sessions !! id); simpl; [done | by left].
  - unfold post_upload. destruct (upload_single part) as [e|req_file]; [by left|].
    unfold upload_handler. destruct (validateSessionId id); simpl; [|by left].
    destruct (sessions !! id) as [s|]; simpl; [|by left].
    destruct req_file as [file|]; [|by left].
    destruct (workspaceData s !! "uploads") as [[| | | | |uploads|]|]; by left.
Qed.

Lemma failures_do_not_mutate_witness :
  serve (ReqReset 2000 "not-a-uuid") one_session = one_session ∨
  ((∃ t_ui t_ws id ui ws, ReqReset 2000 "not-a-uuid" = ReqPutState t_ui t_ws id ui ws) ∧
   failure 400 "Invalid session ID format" = failure 400 "Invalid workspace data").
Proof.
  apply (failures_do_not_mutate (ReqReset 2000 "not-a-uuid") one_session
           (failure 400 "Invalid session ID format")); reflexivity.
Defined.

(** *** Successful state updates *)

(** X7.  A state update with a valid [uiState] object and no [workspaceData]
    answers 200 with the stored record: every key of the patch now holds the
    patch's value, every other key of [uiState] and the whole
    [workspaceData] are as before, and [lastActivity] is the time of the
    update. *)
Theorem put_state_merges_uiState t_ui t_ws id sessions s props :
  validateSessionId id = true →
  sessions !! id = Some s →
  validateUiState (VObj props) = true →
  ∃ s',
    put_state t_ui t_ws id (VObj props) VUndefined sessions
    = ({| status := 200; success := true;
          message := Some "Session state updated successfully";
          payload := Session s' |},
       <[id := s']> sessions) ∧
    (∀ k v, props !! k = Some v → uiState s' !! k = Some v) ∧
    (∀ k, props !! k = None → uiState s' !! k = uiState s !! k) ∧
    workspaceData s' = workspaceData s ∧
    sessionId s' = sessionId s ∧ createdAt s' = createdAt s ∧
    lastActivity s' = t_ui.
Proof.
  intros Hid Hs Hok. exists (updateUiState t_ui (VObj props) s).
  unfold put_state. rewrite Hid, Hs, Hok. simpl. split; [done|].
  split; [|split; [|done]].
  - intros k v Hk. by apply spread_lookup_patch.
  - intros k Hk. by apply spread_lookup_base.
Qed.

Lemma put_state_merges_uiState_witness :
  ∃ s',
    (put_state 2000 2001 sample_id table_tab VUndefined one_session).2
    = <[sample_id := s']> one_session ∧
    uiState s' !! "activeTab" = Some (VStr "table") ∧
    uiState s' !! "excelToggle" = Some (VBool false).
Proof.
  assert (validateUiState (VObj {[ "activeTab" := VStr "table" ]}) = true) as Hok
    by reflexivity.
  destruct (put_state_merges_uiState 2000 2001 sample_id one_session fresh
              {[ "activeTab" := VStr "table" ]} eq_refl eq_refl Hok)
    as (s' & H1 & H2 & H3 & _).
  exists s'. unfold table_tab. split; [by rewrite H1|]. split.
  - apply H2. reflexivity.
  - rewrite H3 by reflexivity. reflexivity.
Defined.

(** X8.  A state update whose body has neither [uiState] nor [workspaceData]
    answers 200 and changes nothing, not even [lastActivity]. *)
Theorem put_state_empty_body_is_noop t_ui t_ws id sessions s :
  validateSessionId id = true →
  sessions !! id = Some s →
  put_state t_ui t_ws id VUndefined VUndefined sessions
  = ({| status := 200; success := true;
        message := Some "Session state updated successfully";
        payload := Session s |},
     sessions).
Proof.
  intros Hid Hs. unfold put_state. rewrite Hid, Hs. simpl. by rewrite insert_id.
Qed.

Lemma put_state_empty_body_is_noop_witness :
  (put_state 5000 5001 sample_id VUndefined VUndefined one_session).2 = one_session ∧
  lastActivity fresh = 1000.
Proof.
  split; [|reflexivity].
  rewrite (put_state_empty_body_is_noop 5000 5001 sample_id one_session fresh
             eq_refl eq_refl).
  reflexivity.
Defined.

(** *** The session count and the sweep *)

Lemma served_request_keeps_ids r sessions id :
  addressee r = Some id → dom (serve r sessions) = dom sessions.
Proof.
  destruct r as [uuid t1 t2 | now k | t1 t2 k ui ws | now k | t1 t2 k part | now];
    simpl; intros [= <-]; try done.
  - unfold get_session. destruct (validateSessionId k); simpl; [|done].
    destruct (sessions !! k) eqn:E; simpl; [|done].
    apply dom_insert_lookup_L. by rewrite E.
  - unfold put_state. destruct (validateSessionId k); simpl; [|done].
    destruct (sessions !! k) eqn:E; simpl; [|done].
    destruct (is_undefined ui), (validateUiState ui), (is_undefined ws),
      (validateWorkspaceData ws); simpl; try done;
      apply dom_insert_lookup_L; by rewrite E.
  - unfold delete_reset. destruct (validateSessionId k); simpl; [|done].
    destruct (sessions !! k) eqn:E; simpl; [|done].
    apply dom_insert_lookup_L. by rewrite E.
  - unfold post_upload. destruct (upload_single part) as [e|req_file]; [done|].
    unfold upload_handler. destruct (validateSessionId k); simpl; [|done].
    destruct (sessions !! k) as [s|] eqn:E; simpl; [|done].
    destruct req_file as [file|]; [|done].
    destruct (workspaceData s !! "uploads") as [[| | | | |uploads|]|]; try done.
    simpl. apply dom_insert_lookup_L. by rewrite E.
Qed.

Lemma sweepExpired_subseteq now age sessions :
  sweepExpired now age sessions ⊆ sessions.
Proof.
  apply map_subseteq_spec. intros id s [Hs _]%sweepExpired_lookup. done.
Qed.

(** X9.  The number of active sessions reported by the health check is left
    unchanged by every request addressed to a session, whether it succeeds
    or fails; creating a session raises it by one (or leaves it unchanged if
    the generated id was already in use); a cleanup never raises it. *)
Theorem active_sessions_count r sessions t :
  match r with
  | ReqInit uuid _ _ =>
      activeSessions (get_health t (serve r sessions))
      = match sessions !! uuid with
        | Some _ => activeSessions (get_health t sessions)
        | None => S (activeSessions (get_health t sessions))
        end
  | ReqCleanup _ =>
      (activeSessions (get_health t (serve r sessions))
       ≤ activeSessions (get_health t sessions))%nat
  | _ =>
      activeSessions (get_health t (serve r sessions))
      = activeSessions (get_health t sessions)
  end.
Proof.
  assert (∀ id, addressee r = Some id →
            base.size (serve r sessions) = base.size sessions) as Hkeep.
  { intros id Hid. rewrite <- !(size_dom (D := gset string)).
    by rewrite (served_request_keeps_ids r sessions id Hid). }
  destruct r as [uuid t1 t2 | now id | t1 t2 id ui ws | now id | t1 t2 id part | now];
    simpl; try (by apply (Hkeep id)).
  - rewrite map_size_insert. by destruct (sessions !! uuid).
  - apply map_subseteq_size, sweepExpired_subseteq.
Qed.

(** X10.  A sweep at a later time subsumes an earlier one with the same
    threshold: sweeping twice removes exactly what the later sweep alone
    removes; in particular a sweep repeated at the same time removes nothing
    more. *)
Theorem later_sweep_subsumes now now' age sessions :
  now ≤ now' →
  sweepExpired now' age (sweepExpired now age sessions)
  = sweepExpired now' age sessions.
Proof.
  intros Hle. apply map_eq. intros id. apply option_eq. intros s.
  rewrite !sweepExpired_lookup. split.
  - intros [[H1 _] H2]. done.
  - intros [H1 H2]. split; [split; [done | lia] | done].
Qed.

Lemma later_sweep_subsumes_witness :
  dom (sweepExpired 90000000 maxAge three_sessions)
  = ({[ other_id; third_id ]} : gset string) ∧
  dom (sweepExpired 140000000 maxAge three_sessions)
  = ({[ third_id ]} : gset string) ∧
  sweepExpired 140000000 maxAge (sweepExpired 90000000 maxAge three_sessions)
  = sweepExpired 140000000 maxAge three_sessions.
Proof.
  split; [vm_compute; reflexivity|]. split; [vm_compute; reflexivity|].
  apply (later_sweep_subsumes 90000000 140000000 maxAge three_sessions). lia.
Defined.

(** X11.  A session fetched at time [t] survives every cleanup that runs no more
    than 24 hours after [t], whatever its age and earlier activity. *)
Theorem fetched_session_survives_cleanup t now id sessions s :
  validateSessionId id = true →
  sessions !! id = Some s →
  now - t ≤ maxAge →
  cleanupSessions now (get_session t id sessions).2 !! id
  = Some (updateLastActivity t s).
Proof.
  intros Hid Hs Hage. unfold get_session. rewrite Hid, Hs. simpl.
  unfold cleanupSessions. apply sweepExpired_lookup.
  split; [by rewrite lookup_insert_eq | done].
Qed.

Lemma fetched_session_survives_cleanup_witness :
  cleanupSessions 172800000 (get_session 100000000 sample_id one_session).2 !! sample_id
  = Some (updateLastActivity 100000000 fresh) ∧
  cleanupSessions 172800000 one_session !! sample_id = None.
Proof.
  split.
  - apply (fetched_session_survives_cleanup 100000000 172800000 sample_id
             one_session fresh eq_refl eq_refl).
    vm_compute. discriminate.
  - vm_compute. reflexivity.
Defined.

End RemoteStoreShape.

(** ** Further properties of the legacy session manager *)

Section SessionManagerLifecycle.

Import Client.
Local Open Scope Z_scope.

Implicit Types (b : Browser) (id : string).

(** *** Bootstrap *)

Lemma adopt_fields d m :
  sessionId (adopt d m) = sessionId m ∧
  syncTimeout (adopt d m) = syncTimeout m ∧
  validationInterval (adopt d m) = validationInterval m ∧
  isInitialized (adopt d m) = isInitialized m ∧
  state (adopt d m) = adopted d (state m).
Proof. unfold adopt, adopted. by destruct (replyUiState d). Qed.

(** X12.  With a remembered id that the backend still knows, [init] resumes the
    session: one GET and no creation request, the id and the fetched state
    adopted, the manager initialised and one new poll started. *)
Theorem init_resumes b id d create :
  truthy_id (storedId b) = Some id →
  success d = true →
  (init (Resolved d) create b).1 = true ∧
  fetched (init (Resolved d) create b).2 = fetched b ++ [GetSession id] ∧
  sessionId (manager (init (Resolved d) create b).2) = Some id ∧
  storedId (init (Resolved d) create b).2 = storedId b ∧
  isInitialized (manager (init (Resolved d) create b).2) = true ∧
  state (manager (init (Resolved d) create b).2) = adopted d (state (manager b)) ∧
  validationInterval (manager (init (Resolved d) create b).2) = Some (nextHandle b) ∧
  nextHandle b ∈ intervals (init (Resolved d) create b).2.
Proof.
  intros Hid Hok. unfold init. rewrite Hid. unfold loadExistingSession.
  rewrite Hok. unfold startPeriodicSync, adopt, adopted. simpl.
  destruct (replyUiState d); simpl;
    destruct (validationInterval (manager b)); simpl;
    repeat split; try done; apply elem_of_app; right; apply list_elem_of_here.
Qed.

Lemma init_resumes_witness :
  fetched (init (Resolved new_session) Rejected
             (page_load (Some Samples.sample_id))).2
  = [GetSession Samples.sample_id] ∧
  isInitialized (manager (init (Resolved new_session) Rejected
                            (page_load (Some Samples.sample_id))).2) = true.
Proof.
  destruct (init_resumes (page_load (Some Samples.sample_id)) Samples.sample_id
              new_session Rejected eq_refl eq_refl)
    as (_ & H1 & _ & _ & H2 & _).
  split; [exact H1 | exact H2].
Defined.

(** X13.  Without a remembered id, or when resuming it fails, [init] creates a
    session: the new id is kept in memory and in [sessionStorage], the state
    of the reply is adopted, the manager is initialised and one new poll is
    started. *)
Theorem init_creates b load d :
  truthy_id (storedId b) = None ∨ failed load = true →
  success d = true →
  (init load (Resolved d) b).1 = true ∧
  fetched (init load (Resolved d) b).2 = fetched b ++ resume_attempt b ++ [PostInit] ∧
  sessionId (manager (init load (Resolved d) b).2) = Some (replySessionId d) ∧
  storedId (init load (Resolved d) b).2 = Some (replySessionId d) ∧
  isInitialized (manager (init load (Resolved d) b).2) = true ∧
  state (manager (init load (Resolved d) b).2) = adopted d (state (manager b)) ∧
  validationInterval (manager (init load (Resolved d) b).2) = Some (nextHandle b).
Proof.
  intros Hload Hok. unfold init, resume_attempt.
  destruct (truthy_id (storedId b)) as [id|] eqn:Hid.
  - destruct Hload as [?|Hload]; [done|].
    unfold loadExistingSession, createNewSession.
    destruct load as [|dl]; simpl in *.
    + rewrite Hok. unfold startPeriodicSync, adopt, adopted. simpl.
      destruct (replyUiState d); simpl;
        destruct (validationInterval (manager b)); simpl;
        rewrite <- app_assoc; done.
    + apply negb_true_iff in Hload. rewrite Hload. simpl. rewrite Hok.
      unfold startPeriodicSync, adopt, adopted. simpl.
      destruct (replyUiState d); simpl;
        destruct (validationInterval (manager b)); simpl;
        rewrite <- app_assoc; done.
  - unfold createNewSession. simpl. rewrite Hok.
    unfold startPeriodicSync, adopt, adopted. simpl.
    destruct (replyUiState d); simpl;
      destruct (validationInterval (manager b)); simpl; done.
Qed.

Lemma init_creates_witness :
  fetched (init (Resolved not_found) (Resolved new_session)
             (page_load (Some Samples.sample_id))).2
  = [GetSession Samples.sample_id; PostInit] ∧
  storedId (init (Resolved not_found) (Resolved new_session)
              (page_load (Some Samples.sample_id))).2
  = Some (replySessionId new_session).
Proof.
  destruct (init_creates (page_load (Some Samples.sample_id)) (Resolved not_found)
              new_session (or_intror eq_refl) eq_refl)
    as (_ & H1 & _ & H2 & _).
  split; [exact H1 | exact H2].
Defined.

(** X14.  When neither resuming nor creating succeeds, [init] returns false and
    leaves the manager exactly as it was, starts no poll, and forgets the
    remembered id it failed to resume. *)
Theorem init_fails b load create :
  truthy_id (storedId b) = None ∨ failed load = true →
  failed create = true →
  (init load create b).1 = false ∧
  fetched (init load create b).2 = fetched b ++ resume_attempt b ++ [PostInit] ∧
  manager (init load create b).2 = manager b ∧
  storedId (init load create b).2
  = match truthy_id (storedId b) with Some _ => None | None => storedId b end ∧
  intervals (init load create b).2 = intervals b ∧
  timeouts (init load create b).2 = timeouts b.
Proof.
  intros Hload Hcreate. unfold init, resume_attempt.
  destruct (truthy_id (storedId b)) as [id|] eqn:Hid.
  - destruct Hload as [?|Hload]; [done|].
    unfold loadExistingSession, createNewSession.
    destruct load as [|dl]; simpl in *.
    + destruct create as [|dc]; simpl in *.
      * rewrite <- app_assoc. done.
      * apply negb_true_iff in Hcreate. rewrite Hcreate. simpl.
        rewrite <- app_assoc. done.
    + apply negb_true_iff in Hload. rewrite Hload. simpl.
      destruct create as [|dc]; simpl in *.
      * rewrite <- app_assoc. done.
      * apply negb_true_iff in Hcreate. rewrite Hcreate. simpl.
        rewrite <- app_assoc. done.
  - unfold createNewSession. destruct create as [|dc]; simpl in *; [done|].
    apply negb_true_iff in Hcreate. by rewrite Hcreate.
Qed.

Lemma init_fails_witness :
  (init Rejected Rejected (page_load (Some Samples.sample_id))).1 = false ∧
  storedId (init Rejected Rejected (page_load (Some Samples.sample_id))).2 = None ∧
  intervals (init Rejected Rejected (page_load (Some Samples.sample_id))).2 = [].
Proof.
  destruct (init_fails (page_load (Some Samples.sample_id)) Rejected Rejected
              (or_intror eq_refl) eq_refl)
    as (H1 & _ & _ & H2 & H3 & _).
  split; [exact H1|]. split; [exact H2 | exact H3].
Defined.

(** *** Timers never pile up *)

Lemma tidy_same b b' :
  intervals b' = intervals b → timeouts b' = timeouts b →
  validationInterval (manager b') = validationInterval (manager b) →
  syncTimeout (manager b') = syncTimeout (manager b) →
  tidy b → tidy b'.
Proof. unfold tidy. by intros -> -> -> ->. Qed.

Ltac drop_cleared :=
  rewrite ?filter_cons, ?filter_nil; simpl; repeat case_decide; try done; simpl.

Lemma tidy_startPeriodicSync b : tidy b → tidy (startPeriodicSync b).
Proof.
  destruct b as [[sid sto vi ini st] stored tos ints nh fs].
  intros [Hpoll Hpush]. unfold startPeriodicSync, tidy in *. simpl in *.
  destruct Hpoll as [-> | (h & -> & ->)]; simpl.
  - destruct vi; simpl; (split; [right; by eexists | done]).
  - drop_cleared. split; [right; by eexists | done].
Qed.

Lemma tidy_invalidate b : tidy b → tidy (invalidate b).
Proof.
  destruct b as [[sid sto vi ini st] stored tos ints nh fs].
  intros [Hpoll Hpush]. unfold invalidate, tidy in *. simpl in *.
  destruct Hpoll as [-> | (h & -> & ->)]; simpl.
  - destruct vi; simpl; (split; [by left | done]).
  - drop_cleared. split; [by left | done].
Qed.

Lemma tidy_createNewSession create b : tidy b → tidy (createNewSession create b).2.
Proof.
  intros H. unfold createNewSession. destruct create as [|d]; simpl.
  - by apply (tidy_same b).
  - destruct (success d); simpl; [|by apply (tidy_same b)].
    destruct (adopt_fields d (set_sessionId (Some (replySessionId d)) (manager b)))
      as (_ & H1 & H2 & _).
    by apply (tidy_same b).
Qed.

Lemma tidy_loadExistingSession id load b :
  tidy b → tidy (loadExistingSession id load b).2.
Proof.
  intros H. unfold loadExistingSession. destruct load as [|d]; simpl.
  - by apply (tidy_same b).
  - destruct (success d); simpl; [|by apply (tidy_same b)].
    destruct (adopt_fields d (set_sessionId (Some id) (manager b)))
      as (_ & H1 & H2 & _).
    by apply (tidy_same b).
Qed.

Lemma tidy_init load create b : tidy b → tidy (init load create b).2.
Proof.
  intros H. unfold init.
  assert (∀ b0, tidy b0 →
            tidy (startPeriodicSync (with_manager (set_isInitialized true) b0)))
    as Hstart.
  { intros b0 H0. apply tidy_startPeriodicSync. by apply (tidy_same b0). }
  destruct (truthy_id (storedId b)) as [id|].
  - pose proof (tidy_loadExistingSession id load b H) as H1.
    destruct (loadExistingSession id load b) as [resumed b1]. simpl in H1.
    destruct resumed; simpl; [by apply Hstart|].
    pose proof (tidy_createNewSession create b1 H1) as H2.
    destruct (createNewSession create b1) as [made b2]. simpl in H2.
    destruct made; simpl; [by apply Hstart | done].
  - pose proof (tidy_createNewSession create b H) as H2.
    destruct (createNewSession create b) as [made b2]. simpl in H2.
    destruct made; simpl; [by apply Hstart | done].
Qed.

Lemma tidy_validation_tick poll load create b :
  tidy b → tidy (validation_tick poll load create b).
Proof.
  intros H. unfold validation_tick.
  destruct (truthy_id (sessionId (manager b))) as [id|]; [|done].
  destruct poll as [|d]; [by apply (tidy_same b)|].
  destruct (success d); [by apply (tidy_same b)|].
  apply tidy_init, tidy_invalidate. by apply (tidy_same b).
Qed.

Lemma tidy_updateState now newState b : tidy b → tidy (updateState now newState b).
Proof.
  destruct b as [[sid sto vi ini st] stored tos ints nh fs].
  intros [Hpoll Hpush]. unfold updateState, debouncedSync, tidy in *. simpl in *.
  destruct ini; simpl; [|done].
  destruct Hpush as [-> | (h & d & -> & ->)]; simpl.
  - destruct sto; simpl; (split; [done | right; by eexists _, _]).
  - drop_cleared. split; [done | right; by eexists _, _].
Qed.

Lemma tidy_syncToServer b : tidy b → tidy (syncToServer b).
Proof.
  intros H. unfold syncToServer.
  destruct (truthy_id (sessionId (manager b))); [by apply (tidy_same b) | done].
Qed.

Lemma tidy_elapse now b : tidy b → tidy (elapse now b).
Proof.
  intros [Hpoll Hpush]. unfold elapse.
  assert (∀ (due : list (nat * Z)) b0, tidy b0 →
            tidy (foldl (λ b1 _, syncToServer b1) b0 due)) as Hfold.
  { induction due as [|e due IH]; intros b0 H0; simpl; [done|].
    apply IH. by apply tidy_syncToServer. }
  apply Hfold. split; simpl; [done|].
  destruct Hpush as [Ht | (h & d & Ht & Hs)]; rewrite Ht.
  - by left.
  - rewrite filter_cons, filter_nil. case_decide; [right; by eexists _, _ | by left].
Qed.

Lemma tidy_resetSession outcome b : tidy b → tidy (resetSession outcome b).2.
Proof.
  intros H. unfold resetSession.
  destruct (truthy_id (sessionId (manager b))) as [id|]; [|done].
  destruct outcome as [|d]; simpl; [by apply (tidy_same b)|].
  destruct (success d); simpl; [|by apply (tidy_same b)].
  destruct (adopt_fields d (manager b)) as (_ & H1 & H2 & _).
  by apply (tidy_same b).
Qed.

Lemma tidy_cleanup b : tidy b → tidy (cleanup b).
Proof.
  destruct b as [[sid sto vi ini st] stored tos ints nh fs].
  intros [Hpoll Hpush]. unfold cleanup, tidy in *. simpl in *.
  destruct Hpush as [-> | (h & d & -> & ->)];
    destruct Hpoll as [-> | (h' & -> & ->)]; simpl.
  - destruct sto, vi; simpl; (split; by left).
  - destruct sto; simpl; drop_cleared; (split; by left).
  - drop_cleared. destruct vi; simpl; (split; by left).
  - drop_cleared. split; by left.
Qed.

(** X15.  From page load on, whatever the manager goes through (bootstraps,
    validation polls with any answer, writes, the passing of time, resets,
    teardown), there is never more than one validation poll installed and
    never more than one debounced push waiting, and each is the one whose
    handle the manager holds. *)
Theorem timers_never_pile_up actions stored :
  (intervals (perform_all actions (page_load stored)) = [] ∨
   ∃ h, intervals (perform_all actions (page_load stored)) = [h] ∧
        validationInterval (manager (perform_all actions (page_load stored)))
        = Some h) ∧
  (timeouts (perform_all actions (page_load stored)) = [] ∨
   ∃ h d, timeouts (perform_all actions (page_load stored)) = [(h, d)] ∧
          syncTimeout (manager (perform_all actions (page_load stored))) = Some h).
Proof.
  assert (∀ b, tidy b → tidy (perform_all actions b)) as Hall.
  { induction actions as [|a actions IH]; intros b Hb; [done|]. simpl. apply IH.
    destruct a; simpl.
    - by apply tidy_init.
    - by apply tidy_validation_tick.
    - by apply tidy_updateState.
    - by apply tidy_elapse.
    - by apply tidy_resetSession.
    - by apply tidy_cleanup. }
  apply (Hall (page_load stored)). split; by left.
Qed.

(** *** Reset and teardown *)

(** X16.  A reset that the backend accepts sends one DELETE and replaces the
    local state by the [uiState] of the reply as a whole: keys the reply
    does not carry are dropped, not kept.  A reset that fails, or that is
    attempted without a session id, leaves the local state as it was. *)
Theorem client_reset_replaces_state b outcome :
  match truthy_id (sessionId (manager b)) with
  | None => resetSession outcome b = (false, b)
  | Some id =>
      fetched (resetSession outcome b).2 = fetched b ++ [DeleteReset id] ∧
      match created outcome with
      | Some d =>
          (resetSession outcome b).1 = true ∧
          getState (resetSession outcome b).2 = adopted d (getState b) ∧
          ∀ uiState k, replyUiState d = Some uiState →
            getState (resetSession outcome b).2 !! k = own_props uiState !! k
      | None =>
          (resetSession outcome b).1 = false ∧
          getState (resetSession outcome b).2 = getState b
      end
  end.
Proof.
  unfold resetSession, created, getState.
  destruct (truthy_id (sessionId (manager b))) as [id|]; [|done].
  destruct outcome as [|d]; simpl; [done|].
  destruct (success d); simpl; [|done].
  destruct (adopt_fields d (manager b)) as (_ & _ & _ & _ & Hst).
  split; [done|]. split; [done|]. split; [done|].
  intros uiState k Hui. rewrite Hst. unfold adopted, spread. rewrite Hui.
  by rewrite (right_id_L ∅ (∪)).
Qed.

(** X17.  After [cleanup] a push that was waiting is never sent, however much
    time passes, and the validation poll is gone. *)
Theorem cleanup_cancels_pending_push b id t h T :
  pending id t b →
  intervals b = [h] → validationInterval (manager b) = Some h →
  fetched (elapse T (cleanup b)) = fetched b ∧
  timeouts (elapse T (cleanup b)) = [] ∧
  intervals (elapse T (cleanup b)) = [].
Proof.
  intros (Hinit & Hid & h0 & Htos & Hsto) Hints Hvi.
  destruct b as [[sid sto vi ini st] stored tos ints nh fs]. simpl in *. subst.
  unfold cleanup, elapse. simpl. drop_cleared.
Qed.

Lemma pending_after_three_writes :
  pending Samples.sample_id 699 (run_writes three_writes active_browser).
Proof. split; [reflexivity|]. split; [reflexivity|]. eexists. split; reflexivity. Qed.

Lemma cleanup_cancels_pending_push_witness :
  fetched (elapse 5000 (cleanup (run_writes three_writes active_browser))) = [] ∧
  intervals (elapse 5000 (cleanup (run_writes three_writes active_browser))) = [].
Proof.
  destruct (cleanup_cancels_pending_push (run_writes three_writes active_browser)
              Samples.sample_id 699 1%nat 5000 pending_after_three_writes
              eq_refl eq_refl) as (H1 & _ & H2).
  split; [exact H1 | exact H2].
Defined.

(** *** More on the debounced push *)

Lemma writes_before_init_are_not_pushed_witness :
  fetched (elapse 100000 (run_writes three_writes (page_load None))) = [] ∧
  state (manager (run_writes three_writes (page_load None))) !! "activeTab"
  = Some (VStr "pq-query").
Proof.
  destruct (writes_before_init_are_not_pushed three_writes (page_load None) 100000
              eq_refl eq_refl) as [H1 H2].
  split; [exact H1|]. rewrite H2. reflexivity.
Defined.

Lemma updateState_reschedules b id t p :
  isInitialized (manager b) = true →
  truthy_id (sessionId (manager b)) = Some id →
  push_ok (timeouts b) (syncTimeout (manager b)) →
  pending id t (updateState t p b) ∧
  fetched (updateState t p b) = fetched b ∧
  state (manager (updateState t p b)) = spread (state (manager b)) p.
Proof.
  intros Hinit Hid Hpush.
  destruct b as [[sid sto vi ini st] stored tos ints nh fs]. simpl in *. subst ini.
  unfold updateState, debouncedSync, pending. simpl.
  destruct Hpush as [-> | (h & d & -> & ->)]; simpl.
  - destruct sto; simpl; (split; [|done]); (split; [done|]);
      (split; [done|]); by eexists.
  - drop_cleared. (split; [|done]); (split; [done|]); (split; [done|]); by eexists.
Qed.

Lemma writes_keep_one_timer ws b id t :
  pending id t b →
  pending id (last_time t ws) (perform_all (write_actions ws) b) ∧
  fetched (perform_all (write_actions ws) b) = fetched b ∧
  state (manager (perform_all (write_actions ws) b)) = merged (state (manager b)) ws.
Proof.
  revert b t. induction ws as [|[t' p] ws IH]; intros b t Hpend; [done|].
  destruct Hpend as (Hinit & Hid & h & Htos & Hsto).
  destruct (updateState_reschedules b id t' p Hinit Hid) as (Hpend' & Hf & Hs).
  { right. by exists h, (t + wait). }
  destruct (IH _ t' Hpend') as (H1 & H2 & H3).
  unfold perform_all, write_actions, last_time, merged in *. simpl.
  split; [done|]. split; [congruence|]. by rewrite H3, Hs.
Qed.

Lemma first_write_sets_timer w ws b id :
  isInitialized (manager b) = true →
  truthy_id (sessionId (manager b)) = Some id →
  timeouts b = [] →
  pending id (last_time 0 (w :: ws)) (perform_all (write_actions (w :: ws)) b) ∧
  fetched (perform_all (write_actions (w :: ws)) b) = fetched b ∧
  state (manager (perform_all (write_actions (w :: ws)) b))
  = merged (state (manager b)) (w :: ws).
Proof.
  intros Hinit Hid Hquiet. destruct w as [t p].
  destruct (updateState_reschedules b id t p Hinit Hid (or_introl Hquiet))
    as (Hpend & Hf & Hs).
  destruct (writes_keep_one_timer ws _ id t Hpend) as (H1 & H2 & H3).
  unfold perform_all, write_actions, last_time, merged in *. simpl.
  split; [done|]. split; [congruence|]. by rewrite H3, Hs.
Qed.

Lemma perform_all_app l1 l2 b :
  perform_all (l1 ++ l2) b = perform_all l2 (perform_all l1 b).
Proof. unfold perform_all. by rewrite foldl_app. Qed.

(** X19.  On a manager that is initialised, holds a session id and has no
    push pending: when the debounce timer is run, at or after its due time,
    after a first group of writes and again after a second group, exactly
    two pushes are sent; the first carries the state at the end of the first
    group, the second the state at the end of the second. *)
Theorem two_write_groups_two_pushes b id ws1 ws2 T1 T2 :
  isInitialized (manager b) = true →
  truthy_id (sessionId (manager b)) = Some id →
  timeouts b = [] →
  ws1 ≠ [] → ws2 ≠ [] →
  last_time 0 ws1 + wait ≤ T1 →
  last_time 0 ws2 + wait ≤ T2 →
  fetched (perform_all (write_actions ws1 ++ [DoElapse T1] ++
                        write_actions ws2 ++ [DoElapse T2]) b)
  = fetched b ++ [PutState id (merged (state (manager b)) ws1);
                  PutState id (merged (state (manager b)) (ws1 ++ ws2))].
Proof.
  intros Hinit Hid Hquiet Hne1 Hne2 HT1 HT2.
  destruct ws1 as [|w1 ws1]; [done|]. destruct ws2 as [|w2 ws2]; [done|].
  destruct (first_write_sets_timer w1 ws1 b id Hinit Hid Hquiet) as (Hp1 & Hf1 & Hs1).
  rewrite !perform_all_app.
  change (perform_all [DoElapse T1] ?x) with (elapse T1 x).
  change (perform_all [DoElapse T2] ?x) with (elapse T2 x).
  set (b1 := perform_all (write_actions (w1 :: ws1)) b) in *.
  destruct (elapse_pending b1 id _ T1 Hp1) as [_ Hlate1].
  destruct (Hlate1 HT1) as (Hf2 & Hq2 & Hm2).
  destruct Hp1 as (Hinit1 & Hid1 & _).
  destruct (first_write_sets_timer w2 ws2 (elapse T1 b1) id) as (Hp3 & Hf3 & Hs3).
  { by rewrite Hm2. } { by rewrite Hm2. } { done. }
  set (b3 := perform_all (write_actions (w2 :: ws2)) (elapse T1 b1)) in *.
  destruct (elapse_pending b3 id _ T2 Hp3) as [_ Hlate3].
  destruct (Hlate3 HT2) as (Hf4 & _ & _).
  rewrite Hf4, Hf3, Hf2, Hf1, Hs3, Hm2, Hs1.
  rewrite <- app_assoc. simpl. unfold merged. by rewrite foldl_app.
Qed.

Lemma two_write_groups_two_pushes_witness :
  fetched (perform_all (write_actions three_writes ++ [DoElapse 1300] ++
                        write_actions later_writes ++ [DoElapse 2100])
             active_browser)
  = [PutState Samples.sample_id
       (merged (state (manager active_browser)) three_writes);
     PutState Samples.sample_id
       (merged (state (manager active_browser)) (three_writes ++ later_writes))].
Proof.
  apply (two_write_groups_two_pushes active_browser Samples.sample_id three_writes
           later_writes 1300 2100 eq_refl eq_refl eq_refl);
    try discriminate; vm_compute; discriminate.
Defined.

Lemma validation_tick_split b id data load create :
  truthy_id (sessionId (manager b)) = Some id →
  success data = false →
  validation_tick (Resolved data) load create b
  = creation_settled create (creation_in_flight id b).
Proof.
  intros Hid Hfail. unfold validation_tick. rewrite Hid, Hfail.
  unfold creation_settled, creation_in_flight, init, init_finish,
    createNewSession, createNewSession_settle, invalidate. simpl.
  destruct (validationInterval (manager b)); simpl;
    destruct create as [|d]; simpl; try done;
    destruct (success d); done.
Qed.

(** X20.  A push that is waiting when a poll invalidates the session is not
    cancelled.  The callback is the invalidation, the creation request, and
    what follows once that request has settled.  If the timer fires while
    the creation request is in flight, it finds no session id and sends
    nothing, and nothing is sent later either, even when the creation then
    succeeds: the waiting edits are never pushed.  If the timer fires only
    after the creation has settled successfully, the push goes to the new
    session id and carries the state adopted from the creation reply. *)
Theorem pending_push_across_invalidation b id t data load create T :
  pending id t b →
  success data = false →
  t + wait ≤ T →
  validation_tick (Resolved data) load create b
  = creation_settled create (creation_in_flight id b) ∧
  fetched (elapse T (creation_in_flight id b))
  = fetched b ++ [GetSession id; PostInit] ∧
  fetched (creation_settled create (elapse T (creation_in_flight id b)))
  = fetched b ++ [GetSession id; PostInit] ∧
  timeouts (creation_settled create (elapse T (creation_in_flight id b))) = [] ∧
  fetched (elapse T (creation_settled create (creation_in_flight id b)))
  = fetched b ++ [GetSession id; PostInit] ++
    match created create with
    | Some d =>
        match truthy_id (Some (replySessionId d)) with
        | Some new_id => [PutState new_id (adopted d (state (manager b)))]
        | None => []
        end
    | None => []
    end.
Proof.
  intros Hpend Hfail HT.
  destruct Hpend as (Hinit & Hid & h & Htos & Hsto).
  split; [by apply validation_tick_split|].
  destruct b as [[sid sto vi ini st] stored tos ints nh fs]. simpl in *. subst.
  unfold creation_settled, creation_in_flight, init_finish,
    createNewSession_settle, invalidate, created. simpl.
  destruct vi as [hv|]; simpl;
    (split; [unfold elapse; simpl; drop_cleared; try lia;
             unfold syncToServer; simpl; by rewrite <- app_assoc|]);
    destruct create as [|d]; simpl;
    try (destruct (success d); simpl);
    unfold startPeriodicSync, adopt, adopted; simpl;
    try (destruct (replyUiState d); simpl);
    unfold elapse; simpl; drop_cleared; try lia;
    unfold syncToServer; simpl;
    try (destruct (String.eqb (replySessionId d) ""); simpl);
    rewrite <- ?app_assoc; simpl; done.
Qed.

Lemma pending_push_across_invalidation_witness :
  fetched (creation_settled (Resolved new_session)
             (elapse 5000 (creation_in_flight Samples.sample_id
                             (run_writes three_writes active_browser))))
  = [GetSession Samples.sample_id; PostInit] ∧
  fetched (elapse 5000 (creation_settled (Resolved new_session)
                          (creation_in_flight Samples.sample_id
                             (run_writes three_writes active_browser))))
  = [GetSession Samples.sample_id; PostInit;
     PutState (replySessionId new_session) Server.default_uiState].
Proof.
  assert (699 + wait ≤ 5000) as HT by (vm_compute; discriminate).
  destruct (pending_push_across_invalidation
              (run_writes three_writes active_browser) Samples.sample_id 699
              not_found Rejected (Resolved new_session) 5000
              pending_after_three_writes eq_refl HT) as (_ & _ & H1 & _ & H2).
  split; [exact H1 | exact H2].
Defined.

End SessionManagerLifecycle.

(** ** Further properties of the local state store *)

Section LocalStoreLifecycle.

Import LocalStore.

Variable stringify : gmap string JsVal → string.
Variable parse : string → Thrown + gmap string JsVal.
Variable localId : string.

(** X21.  After a write that was stored, a reload of the page restores exactly
    the written state, without error, provided the stored text parses back
    to the state it was made from. *)
Theorem write_survives_reload updates hook storage throws_save throws_fallback :
  String.eqb (stringify (spread (state hook) (VObj updates))) "" = false →
  parse (stringify (spread (state hook) (VObj updates)))
  = inr (spread (state hook) (VObj updates)) →
  initializeSession stringify parse localId throws_save throws_fallback
    (updateState stringify updates None hook storage).2
  = ({| state := state (updateState stringify updates None hook storage).1;
        isLoading := false; error := None |},
     (updateState stringify updates None hook storage).2).
Proof.
  intros Hne Hparse. unfold updateState, initializeSession. simpl.
  rewrite lookup_insert_eq. simpl. rewrite Hne, Hparse. done.
Qed.

(** X22.  When the stored text does not parse, initialisation falls back to the
    defaults, reports the failure in [error], ends with [isLoading] false,
    and overwrites the stored text with the defaults if the medium accepts
    the write (leaving it as it was otherwise). *)
Theorem corrupt_storage_falls_back storage text e throws_save throws_fallback :
  truthy_item (storage !! SESSION_STORAGE_KEY) = Some text →
  parse text = inl e →
  initializeSession stringify parse localId throws_save throws_fallback storage
  = ({| state := defaultState localId; isLoading := false;
        error := Some ("Failed to initialize: " +:+ describe e) |},
     match throws_fallback with
     | None => <[SESSION_STORAGE_KEY := stringify (defaultState localId)]> storage
     | Some _ => storage
     end).
Proof.
  intros Hitem Hparse. unfold initializeSession. rewrite Hitem, Hparse.
  unfold save_defaults, setItem. by destruct throws_fallback.
Qed.

(** X23.  On a first visit (nothing stored, or an empty text) initialisation takes
    the defaults and stores them; if that write throws, the defaults are
    still the state and the failure is reported in [error]. *)
Theorem first_visit_takes_defaults storage throws_save throws_fallback :
  truthy_item (storage !! SESSION_STORAGE_KEY) = None →
  state (initializeSession stringify parse localId throws_save throws_fallback
           storage).1 = defaultState localId ∧
  isLoading (initializeSession stringify parse localId throws_save throws_fallback
               storage).1 = false ∧
  match throws_save with
  | None =>
      initializeSession stringify parse localId throws_save throws_fallback storage
      = ({| state := defaultState localId; isLoading := false; error := None |},
         <[SESSION_STORAGE_KEY := stringify (defaultState localId)]> storage)
  | Some e =>
      error (initializeSession stringify parse localId throws_save throws_fallback
               storage).1 = Some ("Failed to initialize: " +:+ describe e)
  end.
Proof.
  intros Hitem. unfold initializeSession. rewrite Hitem.
  unfold setItem. by destruct throws_save.
Qed.

(** X24.  A reset leaves nothing of the previous state: every field but
    [sessionId] is the default one, whatever the state was and whether or
    not the write succeeds.  The [sessionId] is the fresh one when the write
    succeeds, and the one of [defaultState] when it throws; a successful
    reset clears [error] and stores the new state. *)
Theorem reset_restores_defaults newId throws_save throws_fallback hook storage :
  (∀ k, k ≠ "sessionId" →
     state (resetSession stringify localId newId throws_save throws_fallback
              hook storage).1 !! k = defaultState localId !! k) ∧
  state (resetSession stringify localId newId throws_save throws_fallback
           hook storage).1 !! "sessionId"
  = Some (VStr (match throws_save with None => newId | Some _ => localId end)) ∧
  match throws_save with
  | None =>
      error (resetSession stringify localId newId throws_save throws_fallback
               hook storage).1 = None ∧
      (resetSession stringify localId newId throws_save throws_fallback
         hook storage).2 !! SESSION_STORAGE_KEY
      = Some (stringify (state (resetSession stringify localId newId throws_save
                                  throws_fallback hook storage).1))
  | Some e =>
      error (resetSession stringify localId newId throws_save throws_fallback
               hook storage).1 = Some ("Reset failed: " +:+ describe e)
  end.
Proof.
  unfold resetSession, setItem. destruct throws_save as [e|]; simpl.
  - split; [done|]. split; done.
  - split; [|split; [|split]].
    + intros k Hk. apply spread_lookup_base. simpl.
      by rewrite lookup_singleton_ne.
    + apply spread_lookup_patch. simpl. by rewrite lookup_singleton_eq.
    + done.
    + by rewrite lookup_insert_eq.
Qed.

(** X25.  Two writes stored one after the other leave the hook and the storage
    exactly as one write of the two partials combined, the later partial
    winning on the keys they share. *)
Theorem writes_compose u1 u2 hook storage :
  updateState stringify u2 None
    (updateState stringify u1 None hook storage).1
    (updateState stringify u1 None hook storage).2
  = updateState stringify (u2 ∪ u1) None hook storage.
Proof.
  unfold updateState, setItem, spread. simpl.
  rewrite insert_insert_eq. by rewrite (assoc_L (∪)).
Qed.

Lemma write_all_keeps_error writes hook storage e :
  error hook = Some e →
  error (write_all stringify writes (hook, storage)).1 = Some e ∧
  isLoading (write_all stringify writes (hook, storage)).1 = isLoading hook.
Proof.
  revert hook storage. induction writes as [|u writes IH]; intros hook storage He;
    [done|].
  assert (error (updateState stringify u None hook storage).1 = Some e) as He'
    by done.
  assert (write_all stringify (u :: writes) (hook, storage)
          = write_all stringify writes
              ((updateState stringify u None hook storage).1,
               (updateState stringify u None hook storage).2)) as ->.
  { unfold write_all, updateState, setItem. reflexivity. }
  destruct (IH _ (updateState stringify u None hook storage).2 He') as [H1 H2].
  split; [done|]. by rewrite H2.
Qed.

(** X26.  Once a write has failed to be stored, the error stays: however many
    later writes are stored successfully, [error] still holds the first
    failure and the App component shows the failure screen instead of the
    editor.  A successful reset brings the editor back. *)
Theorem failed_write_blocks_editor updates e writes hook storage newId throws_fallback :
  isLoading hook = false →
  render (write_all stringify writes
            (updateState stringify updates (Some e) hook storage)).1
  = InitFailed ("Failed to save: " +:+ describe e) ∧
  ∃ st,
    render (resetSession stringify localId newId None throws_fallback
              (write_all stringify writes
                 (updateState stringify updates (Some e) hook storage)).1
              (write_all stringify writes
                 (updateState stringify updates (Some e) hook storage)).2).1
    = Editor st.
Proof.
  intros Hload.
  assert ((updateState stringify updates (Some e) hook storage)
          = ((updateState stringify updates (Some e) hook storage).1,
             (updateState stringify updates (Some e) hook storage).2)) as Hpair
    by reflexivity.
  rewrite Hpair.
  set (w := write_all stringify writes
              ((updateState stringify updates (Some e) hook storage).1,
               (updateState stringify updates (Some e) hook storage).2)).
  assert (error w.1 = Some ("Failed to save: " +:+ describe e) ∧
          isLoading w.1 = false) as [He Hl].
  { destruct (write_all_keeps_error writes
                (updateState stringify updates (Some e) hook storage).1
                (updateState stringify updates (Some e) hook storage).2
                ("Failed to save: " +:+ describe e) eq_refl) as [H1 H2].
    split; [exact H1|]. unfold w. rewrite H2. exact Hload. }
  split.
  - unfold render. by rewrite Hl, He.
  - exists (state (resetSession stringify localId newId None throws_fallback
                     w.1 w.2).1).
    unfold render. unfold resetSession at 1 2. unfold setItem. simpl.
    by rewrite Hl.
Qed.

End LocalStoreLifecycle.

(** Concrete instances of the properties above. *)

Lemma write_survives_reload_witness :
  LocalStore.state
    (LocalStore.initializeSession sample_stringify sample_parse "local_1_abc" None None
       (LocalStore.updateState sample_stringify {[ "activeTab" := VStr "table" ]}
          None loaded_hook ∅).2).1
  = sample_saved.
Proof.
  rewrite (write_survives_reload sample_stringify sample_parse "local_1_abc"
             {[ "activeTab" := VStr "table" ]} loaded_hook ∅ None None
             eq_refl eq_refl).
  reflexivity.
Defined.

Lemma corrupt_storage_falls_back_witness :
  LocalStore.error
    (LocalStore.initializeSession sample_stringify sample_parse "local_1_abc" None None
       {[ LocalStore.SESSION_STORAGE_KEY := "oops"%string ]}).1
  = Some "Failed to initialize: Unexpected token"%string.
Proof.
  assert (LocalStore.truthy_item
            (({[ LocalStore.SESSION_STORAGE_KEY := "oops"%string ]}
                : gmap string string) !! LocalStore.SESSION_STORAGE_KEY)
          = Some "oops"%string) as Hitem by (vm_compute; reflexivity).
  rewrite (corrupt_storage_falls_back sample_stringify sample_parse "local_1_abc"
             {[ LocalStore.SESSION_STORAGE_KEY := "oops"%string ]} "oops"
             (LocalStore.ThrownError "Unexpected token") None None
             Hitem eq_refl).
  reflexivity.
Defined.

Lemma first_visit_takes_defaults_witness :
  LocalStore.state
    (LocalStore.initializeSession sample_stringify sample_parse "local_1_abc"
       (Some LocalStore.ThrownOther) None ∅).1
  = LocalStore.defaultState "local_1_abc" ∧
  LocalStore.error
    (LocalStore.initializeSession sample_stringify sample_parse "local_1_abc"
       (Some LocalStore.ThrownOther) None ∅).1
  = Some "Failed to initialize: Unknown error"%string.
Proof.
  assert (LocalStore.truthy_item
            ((∅ : gmap string string) !! LocalStore.SESSION_STORAGE_KEY) = None)
    as Hitem by (vm_compute; reflexivity).
  destruct (first_visit_takes_defaults sample_stringify sample_parse "local_1_abc"
              ∅ (Some LocalStore.ThrownOther) None Hitem) as (H1 & _ & H2).
  split; [exact H1 | exact H2].
Defined.

Lemma failed_write_blocks_editor_witness :
  LocalStore.render
    (write_all sample_stringify [{[ "excelToggle" := VBool true ]}]
       (LocalStore.updateState sample_stringify {[ "activeTab" := VStr "table" ]}
          (Some (LocalStore.ThrownError "QuotaExceededError")) loaded_hook ∅)).1
  = LocalStore.InitFailed "Failed to save: QuotaExceededError".
Proof.
  destruct (failed_write_blocks_editor sample_stringify "local_1_abc"
              {[ "activeTab" := VStr "table" ]}
              (LocalStore.ThrownError "QuotaExceededError")
              [{[ "excelToggle" := VBool true ]}] loaded_hook ∅ "local_2_def" None
              eq_refl) as [H _].
  exact H.
Defined.
